(** * ingestion_server/cleanup.py: a shallow embedding

    The module cleans staged catalogue records: it adds a scheme to URLs
    that lack one ([CleanupFunctions.cleanup_url]), drops boilerplate and
    low-confidence tags ([CleanupFunctions.cleanup_tags]), decides per
    provider whether HTTPS is available ([TlsTest]) and fans the rows of
    every batch out to worker processes ([_clean_data_worker],
    [clean_image_data]).

    Python values are modelled as follows.
    - [str] is [string]; the substring test [x in s], [str.replace] and
      [str.lower] are written out on it (byte-wise, which agrees with
      Python on ASCII text).
    - the [tls_support] and [providers_config] dictionaries, which are only
      read and written by key, are [gmap]s; the field dictionaries, which the
      worker iterates, are insertion-ordered association lists.
    - an HTTP GET, the statements sent to the database and the mutation of
      the [tls_support] dictionary are effects: they are threaded through an
      explicit world state, and a raised exception is an error result.
    - [urlparse] and the network are not part of the module: what
      [urlparse] does on a string (the scheme it finds, or the exception it
      raises) and what a request does (a status, [RequestException], or
      another exception) are parameters.
    - a statement is the text that is handed to the database cursor: values
      are formatted into it without escaping, so the text is kept as it is
      and nothing is said of how the server reads it.
    - a tag's accuracy is a binary64 float, compared as Python compares it. *)

From Stdlib Require Import ZArith String Ascii List Floats Lia.
From stdpp Require Import base option list gmap strings pretty.

Local Open Scope string_scope.
Local Open Scope Z_scope.

(** ** Python string operations *)

Module PyStr.

(** [pat in s] for two strings. *)
Fixpoint contains (pat s : string) : bool :=
  if String.prefix pat s then true
  else match s with
       | EmptyString => false
       | String _ rest => contains pat rest
       end.

(** [s.replace(old, new)] for a non-empty [old]: occurrences are replaced
    from the left and do not overlap.  [skip] counts the characters of a
    match that are still to be dropped. *)
Fixpoint replace_from (old new : string) (skip : nat) (s : string) : string :=
  match s with
  | EmptyString => EmptyString
  | String c rest =>
      match skip with
      | S k => replace_from old new k rest
      | O =>
          if String.prefix old s
          then new +:+ replace_from old new (Nat.pred (String.length old)) rest
          else String c (replace_from old new O rest)
      end
  end.

Definition replace (old new s : string) : string := replace_from old new O s.

(** [c.lower()] on one ASCII character. *)
Definition lower_ascii (c : ascii) : ascii :=
  let n := nat_of_ascii c in
  if (Nat.leb 65 n && Nat.leb n 90)%bool then ascii_of_nat (n + 32) else c.

(** [s.lower()]. *)
Fixpoint lower (s : string) : string :=
  match s with
  | EmptyString => EmptyString
  | String c rest => String (lower_ascii c) (lower rest)
  end.

(** [sep.join(l)]. *)
Fixpoint join (sep : string) (l : list string) : string :=
  match l with
  | nil => EmptyString
  | cons s nil => s
  | cons s rest => s +:+ sep +:+ join sep rest
  end.

End PyStr.

(** A line break. *)
Definition nl : string := String (ascii_of_nat 10) EmptyString.

(** ** Exceptions *)

Inductive Exn : Type :=
  | KeyError
  | TypeError
  | AttributeError
  | ZeroDivisionError
  | ValueError
  | UnicodeError.

Inductive Result (A : Type) : Type :=
  | Ok (a : A)
  | Raise (e : Exn).
Arguments Ok {A} a.
Arguments Raise {A} e.

(** ** The network *)

(** One call [re.get(url, timeout=t)]. *)
Record Request : Type := GET { req_url : string; req_timeout : Z }.

(** What the call does: it returns a response with a status code, or raises
    [requests.RequestException], the base class of what the requests
    library raises itself (connection failures and timeouts included), or
    raises an exception [e] that is no [RequestException] (a host name
    that cannot be encoded, for one). *)
Inductive Response : Type :=
  | Status (status_code : Z)
  | RequestException
  | Raises (e : Exn).

(** The network answers a request knowing the requests made before it, so
    the same URL may be answered differently at different times. *)
Definition Network : Type := list Request -> Request -> Response.

(** ** The upstream database *)

(** One row of the sample query [SELECT thumbnail, url ...]. *)
Record SampleRow : Type := mkSample {
  sample_thumbnail : option string;
  sample_url : string
}.

(** The upstream database as the function reads it: the identifiers in
    [content_provider], and the rows the [LIMIT 10] sample query returns
    for a table and a provider. *)
Record UpstreamDb : Type := mkUpstream {
  content_provider : list string;
  sample_query : string -> string -> list SampleRow
}.

(** [r['thumbnail'] if r['thumbnail'] else r['url']] *)
Definition sample_image (r : SampleRow) : string :=
  match sample_thumbnail r with
  | Some t => if String.eqb t "" then sample_url r else t
  | None => sample_url r
  end.

(** ** TlsTest *)

Module TlsTest.

Section Probe.
Variable net : Network.

(** The body of [test_tls_supported]; [fuel] bounds the depth of nested
    calls, the outermost call included, and [None] means the bound was
    hit. A call returns its answer and the list of requests made so far,
    or raises what [re.get] raised outside [RequestException]. *)
Fixpoint test_tls_supported_fuel (fuel : nat) (url : string)
    (sent : list Request) : option (Result (bool * list Request)) :=
  match fuel with
  | O => None
  | S fuel' =>
      if (negb (PyStr.contains "https://" url)
          && negb (PyStr.contains "http://" url))%bool
      then
        let fixed_url := "http://" +:+ url in
        test_tls_supported_fuel fuel' fixed_url sent
      else if PyStr.contains "http://" url
      then
        let https := PyStr.replace "http://" "https://" url in
        let rq := GET https 2 in
        match net sent rq with
        | Status status_code =>
            Some (Ok (((200 <=? status_code) && (status_code <? 400))%bool,
                      (sent ++ [rq])%list))
        | RequestException => Some (Ok (false, (sent ++ [rq])%list))
        | Raises e => Some (Raise e)
        end
      else Some (Ok (true, sent))
  end.

(** The call as the rest of the module uses it. Two levels of calls are
    always enough ([test_tls_supported_fuel_enough] below), so the
    default is never taken. *)
Definition test_tls_supported (url : string) (sent : list Request)
    : Result (bool * list Request) :=
  match test_tls_supported_fuel 2 url sent with
  | Some r => r
  | None => Ok (false, sent)
  end.

(** The [for thumb in img_list] loop with its two counters. *)
Fixpoint tally (img_list : list string) (http_score https_score : Z)
    (sent : list Request) : Result (Z * Z * list Request) :=
  match img_list with
  | [] => Ok (http_score, https_score, sent)
  | thumb :: rest =>
      match test_tls_supported thumb sent with
      | Raise e => Raise e
      | Ok (tls_supported, sent1) =>
          if (tls_supported : bool)
          then tally rest http_score (https_score + 1) sent1
          else tally rest (http_score + 1) https_score sent1
      end
  end.

(** The body of [for p in providers] for one provider [p]. *)
Definition test_one_provider (table : string) (upstream_db : UpstreamDb)
    (p : string) (provider_tls_supported : gmap string bool)
    (sent : list Request) : Result (gmap string bool * list Request) :=
  let img_list := map sample_image (sample_query upstream_db table p) in
  match tally img_list 0 0 sent with
  | Raise e => Raise e
  | Ok (http_score, https_score, sent1) =>
      if https_score >=? http_score
      then Ok (<[p := true]> provider_tls_supported, sent1)
      else Ok (<[p := false]> provider_tls_supported, sent1)
  end.

Fixpoint test_providers (table : string) (upstream_db : UpstreamDb)
    (providers : list string) (provider_tls_supported : gmap string bool)
    (sent : list Request) : Result (gmap string bool * list Request) :=
  match providers with
  | [] => Ok (provider_tls_supported, sent)
  | p :: rest =>
      match test_one_provider table upstream_db p provider_tls_supported sent with
      | Raise e => Raise e
      | Ok (m, sent1) => test_providers table upstream_db rest m sent1
      end
  end.

Definition test_provider_tls_images_available (table : string)
    (upstream_db : UpstreamDb) (sent : list Request)
    : Result (gmap string bool * list Request) :=
  test_providers table upstream_db (content_provider upstream_db) ∅ sent.

End Probe.

End TlsTest.

(** ** Field values, tags and cleaned values *)

(** One element of a [tags] column: a dictionary that may or may not have
    the keys [name] and [accuracy]. A name that is there is a string and
    an accuracy that is there is a number; a tag that holds something else
    under one of these keys ([null], say) is not covered. *)
Record Tag : Type := mkTag {
  tag_name : option string;
  tag_accuracy : option float
}.

(** What a column of a staged row holds. *)
Inductive Value : Type :=
  | VNone
  | VInt (n : Z)
  | VStr (s : string)
  | VTags (tags : list Tag).

(** Python truth value of a column value. *)
Definition truthy (v : Value) : bool :=
  match v with
  | VNone => false
  | VInt n => negb (n =? 0)
  | VStr s => negb (String.eqb s "")
  | VTags tags => match tags with [] => false | _ :: _ => true end
  end.

(** What a cleanup function returns when an update is required: the quoted
    SQL literal built by [cleanup_url], or the [Json] adapter around the
    retained tags built by [cleanup_tags]. *)
Inductive Cleaned : Type :=
  | SqlLiteral (s : string)
  | Json (tag_output : list Tag).

(** Truth value of a cleanup function's result ([if clean:]). A [Json]
    adapter is an object without [__bool__] or [__len__], hence true. *)
Definition clean_truthy (clean : option Cleaned) : bool :=
  match clean with
  | None => false
  | Some (SqlLiteral s) => negb (String.eqb s "")
  | Some (Json _) => true
  end.

(** ** The world a worker acts on *)

(** The cleanup functions of the module, as [_cleanup_config] names them. *)
Inductive CleanFn : Type :=
  | Fn_cleanup_tags
  | Fn_cleanup_url.

(** A completed call of a cleanup function by a worker. *)
Record Call : Type := mkCall {
  call_field : string;
  call_func : CleanFn;
  call_arg : Value;
  call_result : option Cleaned
}.

(** The database is known by the statement texts it was sent: the worker
    hands [write_cur.execute] a string, and what the server makes of that
    string is not part of this module. The connection is taken to work:
    connecting, executing and committing raise nothing. *)
Record World : Type := mkWorld {
  tls_support : gmap string bool;   (* the worker's dictionary *)
  sent : list Request;              (* GETs made so far *)
  executed : list string;           (* write_cur.execute, not yet committed *)
  committed : list string;          (* after worker_conn.commit() *)
  calls : list Call                 (* completed cleanup calls, in order *)
}.

Definition set_tls_support (m : gmap string bool) (w : World) : World :=
  mkWorld m (sent w) (executed w) (committed w) (calls w).
Definition set_sent (l : list Request) (w : World) : World :=
  mkWorld (tls_support w) l (executed w) (committed w) (calls w).
Definition execute (q : string) (w : World) : World :=
  mkWorld (tls_support w) (sent w) (executed w ++ [q]) (committed w) (calls w).
Definition commit (w : World) : World :=
  mkWorld (tls_support w) (sent w) [] (committed w ++ executed w) (calls w).
Definition log_call (c : Call) (w : World) : World :=
  mkWorld (tls_support w) (sent w) (executed w) (committed w) (calls w ++ [c]).

(** Code that reads and writes the world and may raise. *)
Definition M (A : Type) : Type := World -> Result (A * World).

Definition ret {A} (a : A) : M A := fun w => Ok (a, w).
Definition raise {A} (e : Exn) : M A := fun _ => Raise e.
Definition bind {A B} (m : M A) (k : A -> M B) : M B :=
  fun w => match m w with
           | Ok (a, w') => k a w'
           | Raise e => Raise e
           end.

Notation "'do' x <- m ; k" := (bind m (fun x => k))
  (at level 10, x name, m at level 100, k at level 200).

(** ** Insertion-ordered dictionaries *)

Module PyDict.
Section Dict.
Context {V : Type}.

(** [d.get(k)] *)
Fixpoint get (d : list (string * V)) (k : string) : option V :=
  match d with
  | [] => None
  | (k', v) :: rest => if String.eqb k' k then Some v else get rest k
  end.

(** [d[k] = v]: an existing key keeps its place, a new one goes last. *)
Fixpoint set (k : string) (v : V) (d : list (string * V)) : list (string * V) :=
  match d with
  | [] => [(k, v)]
  | (k', v') :: rest =>
      if String.eqb k' k then (k', v) :: rest else (k', v') :: set k v rest
  end.

(** [{**a, **b}] *)
Definition merge (a b : list (string * V)) : list (string * V) :=
  fold_left (fun d kv => set (fst kv) (snd kv) d) b a.

(** The keys, in iteration order. *)
Definition keys (d : list (string * V)) : list string := map fst d.
End Dict.
End PyDict.

(** ** Constants *)

(** Automatically generated tags that are of no use; lower-case. *)
Definition TAG_BLACKLIST : gset string :=
  {[ "no person"; "squareformat"; "uploaded:by=flickrmobile";
     "uploaded:by=instagram"; "flickriosapp:filter=flamingo"; "cc0"; "by";
     "by-nc"; "by-nd"; "by-sa"; "by-nc-nd"; "by-nc-sa"; "pdm" ]}.

(** [0.90], that is the binary64 number nearest to it. *)
Definition TAG_MIN_CONFIDENCE : float := 0x1.ccccccccccccdp-1%float.

(** ** CleanupFunctions *)

Module CleanupFunctions.

(** [tag['accuracy'] < TAG_MIN_CONFIDENCE], when the key is there. *)
Definition below_threshold (tag : Tag) : bool :=
  match tag_accuracy tag with
  | Some accuracy => PrimFloat.ltb accuracy TAG_MIN_CONFIDENCE
  | None => false
  end.

(** [tag['name'].lower() in TAG_BLACKLIST or below_threshold]; a tag
    without a name raises [KeyError]. *)
Definition should_filter (tag : Tag) : Result bool :=
  match tag_name tag with
  | None => Raise KeyError
  | Some name =>
      Ok (bool_decide (PyStr.lower name ∈ TAG_BLACKLIST) || below_threshold tag)%bool
  end.

(** The [for tag in tags] loop with its two variables. *)
Fixpoint cleanup_tags_loop (tags tag_output : list Tag) (update_required : bool)
    : Result (list Tag * bool) :=
  match tags with
  | [] => Ok (tag_output, update_required)
  | tag :: rest =>
      match should_filter tag with
      | Raise e => Raise e
      | Ok true => cleanup_tags_loop rest tag_output update_required
      | Ok false => cleanup_tags_loop rest (tag_output ++ [tag])%list true
      end
  end.

(** [cleanup_tags(tags)]. Iterating a non-empty string or a number as if
    it were a tag collection raises [TypeError]. *)
Definition cleanup_tags (tags : Value) : Result (option Cleaned) :=
  if negb (truthy tags) then Ok None
  else match tags with
       | VTags l =>
           match cleanup_tags_loop l [] false with
           | Raise e => Raise e
           | Ok (tag_output, true) => Ok (Some (Json tag_output))
           | Ok (_, false) => Ok None
           end
       | _ => Raise TypeError
       end.

Section Url.
(** [urlparse(url).scheme] of the standard library: the scheme that
    [urlparse] finds in a string, or the exception that it raises
    ([ValueError] on a malformed bracketed host, for one). *)
Variable urlparse_scheme : string -> Result string.
Variable net : Network.

(** [tls_support[provider]], and in the [except KeyError] branch the probe
    of the URL, whose answer is stored in the dictionary. An exception
    that the probe lets through leaves [cleanup_url] as well. *)
Definition tls_supported_of (url provider : string) : M bool :=
  fun w =>
    match tls_support w !! provider with
    | Some tls_supported => Ok (tls_supported, w)
    | None =>
        match TlsTest.test_tls_supported net url (sent w) with
        | Raise e => Raise e
        | Ok (tls_supported, sent1) =>
            Ok (tls_supported,
                set_tls_support (<[provider := tls_supported]> (tls_support w))
                  (set_sent sent1 w))
        end
    end.

(** [cleanup_url(url=url, tls=tls_support, provider=provider)], where
    [tls_support] is the dictionary of the world. *)
Definition cleanup_url (url provider : string) : M (option Cleaned) :=
  fun w =>
    match urlparse_scheme url with
    | Raise e => Raise e
    | Ok scheme =>
        if String.eqb scheme ""
        then
          match tls_supported_of url provider w with
          | Raise e => Raise e
          | Ok (tls_supported, w1) =>
              if (tls_supported : bool)
              then Ok (Some (SqlLiteral ("'https://" +:+ url +:+ "'")), w1)
              else Ok (Some (SqlLiteral ("'http://" +:+ url +:+ "'")), w1)
          end
        else Ok (None, w)
    end.
End Url.

End CleanupFunctions.

(** ** The cleanup configuration *)

(** The [fields] dictionary of one provider: field name to cleanup function. *)
Abbreviation FieldTable := (list (string * CleanFn)).

(** [_cleanup_config['tables']]: table, then provider, then fields. *)
Definition _cleanup_config : gmap string (gmap string FieldTable) :=
  {[ "image" :=
       {[ "*" := [ ("tags", Fn_cleanup_tags);
                   ("url", Fn_cleanup_url);
                   ("creator_url", Fn_cleanup_url);
                   ("foreign_landing_url", Fn_cleanup_url);
                   ("thumbnail", Fn_cleanup_url) ] ]} ]}.

(** ** _clean_data_worker *)

(** A row of the cleanup selection [SELECT id, provider, {fields}]. *)
Record Row : Type := mkRow {
  row_id : Z;
  row_provider : string;
  row_fields : gmap string Value
}.

(** [row[field]]; a column that was not selected raises [KeyError]. *)
Definition row_get (row : Row) (field : string) : option Value :=
  if String.eqb field "id" then Some (VInt (row_id row))
  else if String.eqb field "provider" then Some (VStr (row_provider row))
  else row_fields row !! field.

(** The rules of a row's provider: the provider's own fields merged over
    the global ones, or the global ones alone. *)
Definition fields_to_update (providers_config : gmap string FieldTable)
    (global_field_to_func : FieldTable) (provider : string) : FieldTable :=
  match providers_config !! provider with
  | Some provider_field_to_func =>
      PyDict.merge global_field_to_func provider_field_to_func
  | None => global_field_to_func
  end.

Section Worker.
Variable urlparse_scheme : string -> Result string.
Variable net : Network.
(** The text that psycopg2's [Json] adapter gives for a tag collection
    when it is formatted into a statement. *)
Variable json_quoted : list Tag -> string.

(** The call of [cleaning_func]. [cleanup_url] hands its argument to
    [urlparse], which raises [AttributeError] on a true value that is not a
    string. *)
Definition call_cleaning_func (cleaning_func : CleanFn) (dirty_value : Value)
    (provider : string) : M (option Cleaned) :=
  match cleaning_func with
  | Fn_cleanup_url =>
      match dirty_value with
      | VStr url => CleanupFunctions.cleanup_url urlparse_scheme net url provider
      | _ => raise AttributeError
      end
  | Fn_cleanup_tags =>
      fun w => match CleanupFunctions.cleanup_tags dirty_value with
               | Ok clean => Ok (clean, w)
               | Raise e => Raise e
               end
  end.

(** The body of [for update_field in fields_to_update]. *)
Definition clean_field (rules : FieldTable) (row : Row) (provider : string)
    (update_field : string) (cleaned_data : list (string * Cleaned))
    : M (list (string * Cleaned)) :=
  match row_get row update_field with
  | None => raise KeyError
  | Some dirty_value =>
      if negb (truthy dirty_value) then ret cleaned_data
      else
        match PyDict.get rules update_field with
        | None => raise KeyError
        | Some cleaning_func =>
            do clean <- call_cleaning_func cleaning_func dirty_value provider;
            fun w =>
              let w1 := log_call (mkCall update_field cleaning_func dirty_value clean) w in
              match clean with
              | Some c =>
                  if clean_truthy clean
                  then Ok (PyDict.set update_field c cleaned_data, w1)
                  else Ok (cleaned_data, w1)
              | None => Ok (cleaned_data, w1)
              end
        end
  end.

Fixpoint clean_fields (rules : FieldTable) (row : Row) (provider : string)
    (update_fields : list string) (cleaned_data : list (string * Cleaned))
    : M (list (string * Cleaned)) :=
  match update_fields with
  | [] => ret cleaned_data
  | update_field :: rest =>
      do cleaned_data1 <- clean_field rules row provider update_field cleaned_data;
      clean_fields rules row provider rest cleaned_data1
  end.

(** [str(cleaned)], as [format] puts a cleaned value into a text. *)
Definition cleaned_text (cleaned : Cleaned) : string :=
  match cleaned with
  | SqlLiteral s => s
  | Json tag_output => json_quoted tag_output
  end.

(** ['{field} = {cleaned}'.format(...)]: the value goes into the text as
    it is, without escaping. *)
Definition field_expression (fc : string * Cleaned) : string :=
  fst fc +:+ " = " +:+ cleaned_text (snd fc).

(** The text of [update_query], with its line breaks and indentation. *)
Definition update_query (temp_table : string) (field_expressions : list string)
    (_id : Z) : string :=
  nl +:+ "                UPDATE " +:+ temp_table +:+ " SET "
     +:+ PyStr.join ", " field_expressions +:+ " WHERE id = " +:+ pretty _id
     +:+ nl +:+ "            ".

(** The body of [for row in rows]. *)
Definition clean_row (temp_table : string)
    (providers_config : gmap string FieldTable)
    (global_field_to_func : FieldTable) (row : Row) : M unit :=
  let provider := row_provider row in
  let _id := row_id row in
  let rules := fields_to_update providers_config global_field_to_func provider in
  do cleaned_data <- clean_fields rules row provider (PyDict.keys rules) [];
  let update_field_expressions := map field_expression cleaned_data in
  if (0 <? length update_field_expressions)%nat
  then fun w => Ok (tt, execute (update_query temp_table update_field_expressions _id) w)
  else ret tt.

Fixpoint clean_rows (temp_table : string)
    (providers_config : gmap string FieldTable)
    (global_field_to_func : FieldTable) (rows : list Row) : M unit :=
  match rows with
  | [] => ret tt
  | row :: rest =>
      do _u <- clean_row temp_table providers_config global_field_to_func row;
      clean_rows temp_table providers_config global_field_to_func rest
  end.

(** [_clean_data_worker(rows, temp_table, providers_config, tls_support)]:
    the worker process starts from its own copy of [tls_support]. *)
Definition _clean_data_worker (rows : list Row) (temp_table : string)
    (providers_config : gmap string FieldTable)
    (tls : gmap string bool) : M bool :=
  fun w0 =>
    let w := set_tls_support tls w0 in
    match providers_config !! "*" with
    | None => Raise KeyError
    | Some global_field_to_func =>
        match clean_rows temp_table providers_config global_field_to_func rows w with
        | Raise e => Raise e
        | Ok (_, w1) => Ok (true, commit w1)
        end
    end.

End Worker.

(** ** clean_image_data: dividing a batch into jobs *)

(** [l[start:stop]] with Python's treatment of negative and out-of-range
    bounds. *)
Definition slice_bound (len i : Z) : Z :=
  if i <? 0 then Z.max 0 (i + len) else Z.min i len.

Definition py_slice {A} (l : list A) (start stop : Z) : list A :=
  let len := Z.of_nat (length l) in
  let lo := slice_bound len start in
  let hi := slice_bound len stop in
  take (Z.to_nat (hi - lo)) (drop (Z.to_nat lo) l).

(** The arguments of one [_clean_data_worker] call. *)
Record Job : Type := mkJob {
  job_rows : list Row;
  job_temp_table : string;
  job_provider_config : gmap string FieldTable;
  job_tls_support : gmap string bool
}.

(** The [for n in range(1, num_workers + 1)] loop. *)
Fixpoint divide_work (batch : list Row) (temp_table : string)
    (provider_config : gmap string FieldTable) (tls : gmap string bool)
    (job_size : Z) (ns : list Z) (last_end : Z) (jobs : list Job) : list Job :=
  match ns with
  | [] => jobs
  | n :: rest =>
      let start := last_end + 1 in
      let end_ := job_size * n in
      divide_work batch temp_table provider_config tls job_size rest end_
        (jobs ++ [mkJob (py_slice batch start end_) temp_table provider_config tls])
  end.

(** [range(1, num_workers + 1)] *)
Definition worker_numbers (num_workers : Z) : list Z :=
  map (fun i => Z.of_nat i) (seq 1 (Z.to_nat num_workers)).

(** The part of the [while batch:] body of [clean_image_data] that builds
    [jobs] for one batch. [int(len(batch) / num_workers)] is the quotient
    rounded towards zero (the float division is exact enough for every
    list length below 2^53). *)
Definition schedule_jobs (batch : list Row) (table : string)
    (provider_config : gmap string FieldTable) (tls : gmap string bool)
    (num_workers : Z) : Result (list Job) :=
  let temp_table := "temp_import_" +:+ table in
  if num_workers =? 0 then Raise ZeroDivisionError
  else
    let job_size := Z.quot (Z.of_nat (length batch)) num_workers in
    Ok (divide_work batch temp_table provider_config tls job_size
          (worker_numbers num_workers) (-1) []).

(** The rows handed to some worker, in job order. *)
Definition scheduled_rows (jobs : list Job) : list Row :=
  concat (map job_rows jobs).

(** ** clean_image_data: the columns that are selected *)

(** [fields_to_clean]: the fields that the rules of any provider of the
    table name. *)
Definition fields_to_clean (providers : gmap string FieldTable) : gset string :=
  ⋃ ((fun pf => list_to_set (PyDict.keys (snd pf))) <$> map_to_list providers).

(** ** Vocabulary of the specification *)

(** A tag whose lower-cased name is in the blacklist. *)
Definition blacklisted (t : Tag) : Prop :=
  ∃ name, tag_name t = Some name ∧ PyStr.lower name ∈ TAG_BLACKLIST.

(** A tag whose accuracy is present and below the minimum confidence. *)
Definition low_accuracy (t : Tag) : Prop :=
  ∃ accuracy, tag_accuracy t = Some accuracy
              ∧ PrimFloat.ltb accuracy TAG_MIN_CONFIDENCE = true.

(** The tags the loop keeps. *)
Definition retained (t : Tag) : bool :=
  match CleanupFunctions.should_filter t with
  | Ok false => true
  | _ => false
  end.

(** The votes of a sample: the answers of the probe on its URLs, taken one
    after the other, up to the first probe that raises. *)
Fixpoint votes (net : Network) (img_list : list string) (sent : list Request)
    : list bool :=
  match img_list with
  | [] => []
  | thumb :: rest =>
      match TlsTest.test_tls_supported net thumb sent with
      | Ok (tls_supported, sent1) => tls_supported :: votes net rest sent1
      | Raise _ => []
      end
  end.

(** The exception [e] was raised by some request, outside
    [RequestException]. *)
Definition raised_by_request (net : Network) (e : Exn) : Prop :=
  ∃ sent rq, net sent rq = Raises e.

(** How many of the votes are [b]. *)
Definition count_votes (b : bool) (vs : list bool) : Z :=
  Z.of_nat (length (List.filter (Bool.eqb b) vs)).

(** The votes on the sample of provider [p]. *)
Definition provider_votes (net : Network) (table : string)
    (upstream_db : UpstreamDb) (p : string) (sent : list Request) : list bool :=
  votes net (map sample_image (sample_query upstream_db table p)) sent.

(** Whether a row has a true value in a column. *)
Definition has_value (row : Row) (field : string) : bool :=
  match row_get row field with
  | Some v => truthy v
  | None => false
  end.

(** A call made for [row] under [rules]: its field is registered with the
    function that was called, and its argument is the row's value of that
    field, a true value. *)
Definition call_of (rules : FieldTable) (row : Row) (c : Call) : Prop :=
  PyDict.get rules (call_field c) = Some (call_func c)
  ∧ row_get row (call_field c) = Some (call_arg c)
  ∧ truthy (call_arg c) = true.

(** From [w] to [w'] the TLS mapping has only gained entries, all of them
    for providers in [ps], and every request made in between has given
    one new entry. *)
Definition tls_grows (ps : gset string) (w w' : World) : Prop :=
  tls_support w ⊆ tls_support w'
  ∧ dom (tls_support w') ⊆ dom (tls_support w) ∪ ps
  ∧ ∃ new, sent w' = (sent w ++ new)%list
           ∧ (length new + size (tls_support w) ≤ size (tls_support w'))%nat.

(** A row that needs no cleaning under [rules]: every registered field is
    empty, or is registered for [cleanup_url] and holds a URL that
    [urlparse] parses and in which it finds a scheme. *)
Definition already_clean (urlparse_scheme : string → Result string)
    (rules : FieldTable) (row : Row) : Prop :=
  ∀ field, field ∈ PyDict.keys rules →
    (∃ v, row_get row field = Some v ∧ truthy v = false)
    ∨ (PyDict.get rules field = Some Fn_cleanup_url
       ∧ ∃ url scheme, row_get row field = Some (VStr url)
                       ∧ urlparse_scheme url = Ok scheme ∧ scheme ≠ "").

(** The update fragments among a sequence of completed cleanup calls: the
    field and the replacement of every call that returned one. *)
Definition fragments (cs : list Call) : list (string * Cleaned) :=
  omap (fun c => match call_result c with
                 | Some r => Some (call_field c, r)
                 | None => None
                 end) cs.

(** ** Concrete environments, used to run the definitions *)

(** A [urlparse] to run [cleanup_url] with, after [urllib.parse.urlsplit]
    of CPython 3.11 on ASCII text: leading spaces and control characters
    are stripped and tabs and line breaks removed; the scheme is the text
    before the first colon, lower-cased, when that text starts with a
    letter and is made of scheme characters only; and when what follows
    starts with [//], a host part with one of [[] and []] but not the other
    raises [ValueError]. What stands between a pair of brackets is not
    looked at. The theorems below hold for any [urlparse]; this one is
    only run on the URLs of the examples. *)
Definition scheme_char (c : ascii) : bool :=
  let n := nat_of_ascii c in
  ((Nat.leb 97 n && Nat.leb n 122) || (Nat.leb 65 n && Nat.leb n 90)
   || (Nat.leb 48 n && Nat.leb n 57)
   || Nat.eqb n 43 || Nat.eqb n 45 || Nat.eqb n 46)%bool.

Definition is_alpha (c : ascii) : bool :=
  let n := nat_of_ascii c in
  ((Nat.leb 97 n && Nat.leb n 122) || (Nat.leb 65 n && Nat.leb n 90))%bool.

(** [url.lstrip(_WHATWG_C0_CONTROL_OR_SPACE)] *)
Fixpoint lstrip_c0 (s : string) : string :=
  match s with
  | EmptyString => EmptyString
  | String c rest => if Nat.leb (nat_of_ascii c) 32 then lstrip_c0 rest else s
  end.

(** The removal of tab, line feed and carriage return. *)
Fixpoint remove_unsafe (s : string) : string :=
  match s with
  | EmptyString => EmptyString
  | String c rest =>
      let n := nat_of_ascii c in
      if (Nat.eqb n 9 || Nat.eqb n 10 || Nat.eqb n 13)%bool
      then remove_unsafe rest else String c (remove_unsafe rest)
  end.

(** The text before the first colon and the text after it. *)
Fixpoint split_colon (s : string) : option (string * string) :=
  match s with
  | EmptyString => None
  | String c rest =>
      if Ascii.eqb c ":" then Some (EmptyString, rest)
      else match split_colon rest with
           | Some (pre, post) => Some (String c pre, post)
           | None => None
           end
  end.

Fixpoint all_scheme_chars (s : string) : bool :=
  match s with
  | EmptyString => true
  | String c rest => (scheme_char c && all_scheme_chars rest)%bool
  end.

(** The host part: what stands before the first [/], [?] or [#]. *)
Fixpoint netloc_of (s : string) : string :=
  match s with
  | EmptyString => EmptyString
  | String c rest =>
      if (Ascii.eqb c "/" || Ascii.eqb c "?" || Ascii.eqb c "#")%bool
      then EmptyString else String c (netloc_of rest)
  end.

Fixpoint has_char (c : ascii) (s : string) : bool :=
  match s with
  | EmptyString => false
  | String c' rest => (Ascii.eqb c' c || has_char c rest)%bool
  end.

(** The check of the brackets of the host part. *)
Definition check_netloc (scheme rest : string) : Result string :=
  match rest with
  | String "/" (String "/" after) =>
      let netloc := netloc_of after in
      if xorb (has_char "[" netloc) (has_char "]" netloc)
      then Raise ValueError else Ok scheme
  | _ => Ok scheme
  end.

Definition urlsplit_scheme (url : string) : Result string :=
  let url := remove_unsafe (lstrip_c0 url) in
  match split_colon url with
  | Some (String c pre, post) =>
      if (is_alpha c && all_scheme_chars (String c pre))%bool
      then check_netloc (PyStr.lower (String c pre)) post
      else check_netloc "" url
  | _ => check_netloc "" url
  end.

(** A stand-in for the text of the [Json] adapter, to run the worker with:
    it only tells how many tags the text holds. *)
Definition json_stub (tag_output : list Tag) : string :=
  "'[" +:+ pretty (Z.of_nat (length tag_output)) +:+ " tags]'".

(** A network that answers every request the same way. *)
Definition net_always (r : Response) : Network := fun _ _ => r.

Definition empty_world : World := mkWorld ∅ [] [] [] [].

(** An upstream database with one provider and a sample of two images:
    one with an HTTPS thumbnail, one with a URL without scheme. *)
Definition upstream_flickr : UpstreamDb :=
  mkUpstream ["flickr"]
    (fun _ p => if String.eqb p "flickr"
                then [mkSample (Some "https://live.example.com/a_t.jpg")
                               "https://live.example.com/a.jpg";
                      mkSample None "www.example.com/b.jpg"]
                else []).

(** The tags of the specification's end-to-end example. *)
Definition tag_cc0 : Tag := mkTag (Some "cc0") (Some 1.0%float).
Definition tag_sunset : Tag :=
  mkTag (Some "sunset") (Some 0x1.e666666666666p-1%float).   (* 0.95 *)

(** The row of the specification's end-to-end example: provider [flickr],
    two tags of which one is blacklisted, a URL without scheme. *)
Definition row_flickr : Row :=
  mkRow 7 "flickr"
    {[ "tags" := VTags [tag_cc0; tag_sunset];
       "url" := VStr "www.example.com/x.jpg";
       "creator_url" := VNone;
       "foreign_landing_url" := VStr "";
       "thumbnail" := VNone ]}.

(** The global rules of the image table. *)
Definition image_rules : FieldTable :=
  [ ("tags", Fn_cleanup_tags);
    ("url", Fn_cleanup_url);
    ("creator_url", Fn_cleanup_url);
    ("foreign_landing_url", Fn_cleanup_url);
    ("thumbnail", Fn_cleanup_url) ].

(** A batch of four rows, told apart by their ids. *)
Definition numbered_row (i : Z) : Row := mkRow i "flickr" ∅.
Definition batch_of_four : list Row := map numbered_row [0; 1; 2; 3].

(** A row that was cleaned before: its URL has a scheme and the other
    registered fields are empty. *)
Definition row_cleaned : Row :=
  mkRow 8 "flickr"
    {[ "tags" := VNone; "url" := VStr "http://example.com/y.jpg";
       "creator_url" := VNone; "foreign_landing_url" := VNone;
       "thumbnail" := VNone ]}.


(** A row of a provider that the mapping does not know. *)
Definition row_unknown_provider : Row :=
  mkRow 9 "met"
    {[ "tags" := VNone; "url" := VStr "images.example.org/9.jpg";
       "creator_url" := VStr "www.example.org/artist";
       "foreign_landing_url" := VNone; "thumbnail" := VNone ]}.

(** A configuration in which one provider overrides a global rule and adds
    a field of its own. *)
Definition providers_with_override : gmap string FieldTable :=
  {[ "*" := [("tags", Fn_cleanup_tags); ("url", Fn_cleanup_url)];
     "flickr" := [("url", Fn_cleanup_tags); ("title", Fn_cleanup_url)] ]}.

(** A row of the selection made under that configuration: it has a column
    for each of [tags], [url] and [title]. *)
Definition row_titled : Row :=
  mkRow 3 "flickr"
    {[ "tags" := VNone; "url" := VStr "www.example.com/t.jpg";
       "title" := VStr "Dawn" ]}.


(** ** Lemmas on strings *)

Lemma prefix_app (p s : string) : String.prefix p (p +:+ s) = true.
Proof.
  induction p as [|c p IH]; simpl.
  - by destruct s.
  - destruct (ascii_dec c c) as [_|ne]; [exact IH | by destruct ne].
Qed.

Lemma contains_prefix (p s : string) :
  String.prefix p s = true -> PyStr.contains p s = true.
Proof. intros H. destruct s; cbn [PyStr.contains]; by rewrite H. Qed.

Lemma contains_app (p s : string) : PyStr.contains p (p +:+ s) = true.
Proof. apply contains_prefix, prefix_app. Qed.

(** ** Lemmas on the probe *)

Section ProbeFacts.
Variable net : Network.

(** With a scheme marker in the URL the call returns without recursing. *)
Lemma test_tls_supported_fuel_marker (fuel : nat) url sent :
  (PyStr.contains "https://" url || PyStr.contains "http://" url)%bool = true ->
  TlsTest.test_tls_supported_fuel net (S fuel) url sent
  = TlsTest.test_tls_supported_fuel net 1 url sent
  /\ is_Some (TlsTest.test_tls_supported_fuel net 1 url sent).
Proof.
  intros Hm. simpl.
  destruct (PyStr.contains "https://" url), (PyStr.contains "http://" url);
    simpl in *; try discriminate; split; try done;
    try (destruct (net sent _); eauto); eauto.
Qed.

(** Without one, the call is the call on the URL with [http://] put in
    front. *)
Lemma test_tls_supported_fuel_no_marker (fuel : nat) url sent :
  PyStr.contains "https://" url = false ->
  PyStr.contains "http://" url = false ->
  TlsTest.test_tls_supported_fuel net (S fuel) url sent
  = TlsTest.test_tls_supported_fuel net fuel ("http://" +:+ url) sent.
Proof.
  intros H1 H2. destruct fuel; cbn [TlsTest.test_tls_supported_fuel];
    by rewrite H1, H2.
Qed.

Lemma marker_after_fix url :
  (PyStr.contains "https://" ("http://" +:+ url)
   || PyStr.contains "http://" ("http://" +:+ url))%bool = true.
Proof. rewrite (contains_app "http://" url). apply orb_true_r. Qed.

Lemma test_tls_supported_fuel_enough (fuel : nat) url sent :
  TlsTest.test_tls_supported_fuel net (2 + fuel) url sent
  = Some (TlsTest.test_tls_supported net url sent).
Proof.
  unfold TlsTest.test_tls_supported.
  change (2 + fuel)%nat with (S (S fuel)).
  destruct (PyStr.contains "https://" url || PyStr.contains "http://" url)%bool eqn:Hm.
  - destruct (test_tls_supported_fuel_marker (S fuel) url sent Hm) as [-> [r Hr]].
    destruct (test_tls_supported_fuel_marker 1 url sent Hm) as [-> _].
    by rewrite Hr.
  - apply orb_false_iff in Hm as [H1 H2].
    rewrite (test_tls_supported_fuel_no_marker (S fuel)),
      (test_tls_supported_fuel_no_marker 1) by done.
    destruct (test_tls_supported_fuel_marker fuel _ sent (marker_after_fix url))
      as [-> [r Hr]].
    by rewrite Hr.
Qed.

End ProbeFacts.

(** ** cleanup_tags *)

Lemma cleanup_tags_loop_spec tags : ∀ tag_output update_required out ur,
  CleanupFunctions.cleanup_tags_loop tags tag_output update_required = Ok (out, ur) →
  out = (tag_output ++ List.filter retained tags)%list
  ∧ ur = (update_required
          || match List.filter retained tags with [] => false | _ => true end)%bool
  ∧ Forall (fun t => is_Some (tag_name t)) tags.
Proof.
  induction tags as [|t tags IH]; intros acc u out ur H; simpl in H.
  - inversion H; subst. simpl. by rewrite app_nil_r, orb_false_r.
  - unfold retained at 1 2. simpl.
    assert (Hn : ∀ b, CleanupFunctions.should_filter t = Ok b → is_Some (tag_name t)).
    { unfold CleanupFunctions.should_filter. destruct (tag_name t); [eauto | done]. }
    destruct (CleanupFunctions.should_filter t) as [[|]|e] eqn:E; [| |done].
    + destruct (IH _ _ _ _ H) as (-> & -> & HF). eauto.
    + destruct (IH _ _ _ _ H) as (-> & -> & HF).
      rewrite <- app_assoc. simpl. rewrite orb_true_r. eauto.
Qed.

Lemma retained_iff (t : Tag) :
  is_Some (tag_name t) →
  retained t = true ↔ ¬ (blacklisted t ∨ low_accuracy t).
Proof.
  intros [name Hname]. unfold retained, CleanupFunctions.should_filter,
    CleanupFunctions.below_threshold, blacklisted, low_accuracy.
  rewrite Hname.
  destruct (bool_decide (PyStr.lower name ∈ TAG_BLACKLIST)) eqn:Hb; simpl.
  - apply bool_decide_eq_true in Hb. split; [done |]. intros Hn. destruct Hn. eauto.
  - apply bool_decide_eq_false in Hb.
    destruct (tag_accuracy t) as [a|] eqn:Ha.
    + destruct (PrimFloat.ltb a TAG_MIN_CONFIDENCE) eqn:Hlt.
      * split; [done |]. intros Hn. destruct Hn. right. eauto.
      * split; [| done]. intros _ [(n & Hn & Hin) | (a' & Ha' & Hlt')].
        -- by simplify_eq.
        -- simplify_eq. congruence.
    + split; [| done]. intros _ [(n & Hn & Hin) | (a' & Ha' & Hlt')];
        by simplify_eq.
Qed.

Lemma filter_sublist {A} (f : A → bool) (l : list A) : sublist (List.filter f l) l.
Proof.
  induction l as [|x l IH]; simpl; [constructor |].
  destruct (f x); by constructor.
Qed.

Lemma cleanup_tags_inv (v : Value) (c : Cleaned) :
  CleanupFunctions.cleanup_tags v = Ok (Some c) →
  ∃ tags, v = VTags tags
          ∧ c = Json (List.filter retained tags)
          ∧ List.filter retained tags ≠ []
          ∧ Forall (fun t => is_Some (tag_name t)) tags.
Proof.
  unfold CleanupFunctions.cleanup_tags. intros H.
  destruct (truthy v) eqn:Hv; simpl in H; [| done].
  destruct v as [| |s|tags]; try done.
  destruct (CleanupFunctions.cleanup_tags_loop tags [] false) as [[out ur]|e] eqn:E;
    [| done].
  destruct (cleanup_tags_loop_spec _ _ _ _ _ E) as (-> & -> & HF).
  simpl in H. exists tags.
  destruct (List.filter retained tags) eqn:Ef; simpl in H; [done |].
  by simplify_eq.
Qed.

(** C2: whenever [cleanup_tags] produces a replacement, its input is a tag
    collection and the replacement holds exactly the input tags that are
    neither blacklisted (by lower-cased name) nor of an accuracy that is
    present and below 0.90: every such tag is absent, nothing new appears,
    and the relative order of the input is kept. *)
Theorem cleanup_tags_filters (v : Value) (c : Cleaned) :
  CleanupFunctions.cleanup_tags v = Ok (Some c) →
  ∃ tags tag_output,
    v = VTags tags ∧ c = Json tag_output
    ∧ (∀ t, t ∈ tags → blacklisted t ∨ low_accuracy t → t ∉ tag_output)
    ∧ (∀ t, t ∈ tags → ¬ (blacklisted t ∨ low_accuracy t) → t ∈ tag_output)
    ∧ (∀ t, t ∈ tag_output → t ∈ tags)
    ∧ sublist tag_output tags.
Proof.
  intros H. destruct (cleanup_tags_inv v c H) as (tags & -> & -> & Hne & HF).
  exists tags, (List.filter retained tags).
  rewrite Forall_forall in HF.
  repeat split; try done.
  - intros t Hin Hf Hout. apply list_elem_of_In, filter_In in Hout as [_ Hr].
    apply retained_iff in Hr; [done | by apply HF].
  - intros t Hin Hf. apply list_elem_of_In, filter_In. split.
    + by apply list_elem_of_In.
    + apply retained_iff; [by apply HF | done].
  - intros t Hout. apply list_elem_of_In, filter_In in Hout as [Hin _].
    by apply list_elem_of_In.
  - apply filter_sublist.
Qed.

Lemma cleanup_tags_filters_witness :
  ∃ tags tag_output,
    VTags [tag_cc0; tag_sunset] = VTags tags ∧ Json [tag_sunset] = Json tag_output
    ∧ (∀ t, t ∈ tags → blacklisted t ∨ low_accuracy t → t ∉ tag_output)
    ∧ (∀ t, t ∈ tags → ¬ (blacklisted t ∨ low_accuracy t) → t ∈ tag_output)
    ∧ (∀ t, t ∈ tag_output → t ∈ tags)
    ∧ sublist tag_output tags.
Proof.
  apply (cleanup_tags_filters (VTags [tag_cc0; tag_sunset]) (Json [tag_sunset])).
  vm_compute. reflexivity.
Defined.

(** C7: [cleanup_tags] produces a replacement only when it retains at
    least one tag, and the replacement is then the retained tags; a
    collection all of whose tags are filtered out, an empty collection and
    an absent one give [None], never an empty replacement. *)
Theorem cleanup_tags_none_when_nothing_retained :
  (∀ v c, CleanupFunctions.cleanup_tags v = Ok (Some c) →
          ∃ tags, v = VTags tags ∧ c = Json (List.filter retained tags)
                  ∧ List.filter retained tags ≠ [])
  ∧ (∀ tags, Forall (fun t => is_Some (tag_name t)
                              ∧ (blacklisted t ∨ low_accuracy t)) tags →
             CleanupFunctions.cleanup_tags (VTags tags) = Ok None)
  ∧ CleanupFunctions.cleanup_tags (VTags []) = Ok None
  ∧ CleanupFunctions.cleanup_tags VNone = Ok None.
Proof.
  split; [| split; [| done]].
  - intros v c H. destruct (cleanup_tags_inv v c H) as (tags & ? & ? & ? & _). eauto.
  - intros tags HF. unfold CleanupFunctions.cleanup_tags.
    destruct tags as [|t0 tags0]; [done |]. cbn [truthy negb].
    set (tags := t0 :: tags0) in *. clearbody tags.
    assert (Hgen : ∀ out ur,
      CleanupFunctions.cleanup_tags_loop tags out ur = Ok (out, ur)).
    { induction HF as [|t l [Hname Hf] _ IH]; intros out ur; [done |].
      simpl. pose proof (retained_iff t Hname) as Hr.
      unfold retained in Hr.
      destruct Hname as [name Hname].
      destruct (CleanupFunctions.should_filter t) as [[|]|e] eqn:E.
      - apply IH.
      - exfalso. by apply Hr.
      - unfold CleanupFunctions.should_filter in E. by rewrite Hname in E. }
    by rewrite Hgen.
Qed.

Lemma cleanup_tags_none_when_nothing_retained_witness :
  CleanupFunctions.cleanup_tags
    (VTags [tag_cc0; mkTag (Some "Sunrise") (Some 0.5%float)]) = Ok None.
Proof.
  apply (proj1 (proj2 cleanup_tags_none_when_nothing_retained)).
  constructor; [| constructor; [| constructor]].
  - split; [by eexists |]. left. exists "cc0". split; [done |].
    apply (bool_decide_unpack _). vm_compute. exact I.
  - split; [by eexists |]. right. exists 0.5%float. split; [done |].
    vm_compute. reflexivity.
Defined.

(** ** The probe, case by case *)

Section ProbeCases.
Variable net : Network.

(** What a call does, told by the substrings of its argument. *)
Lemma test_tls_supported_cases url sent :
  let u := if (negb (PyStr.contains "https://" url)
               && negb (PyStr.contains "http://" url))%bool
           then "http://" +:+ url else url in
  TlsTest.test_tls_supported net url sent
  = if PyStr.contains "http://" u
    then let rq := GET (PyStr.replace "http://" "https://" u) 2 in
         match net sent rq with
         | Status status_code =>
             Ok (((200 <=? status_code) && (status_code <? 400))%bool,
                 (sent ++ [rq])%list)
         | RequestException => Ok (false, (sent ++ [rq])%list)
         | Raises e => Raise e
         end
    else Ok (true, sent).
Proof.
  unfold TlsTest.test_tls_supported.
  destruct (PyStr.contains "https://" url) eqn:H1;
    destruct (PyStr.contains "http://" url) eqn:H2; cbn [negb andb].
  1-3: cbn [TlsTest.test_tls_supported_fuel]; rewrite H1, H2; cbn [negb andb];
       try (by destruct (net sent _)); done.
  rewrite (test_tls_supported_fuel_no_marker net 1) by done.
  cbn [TlsTest.test_tls_supported_fuel].
  rewrite (contains_app "http://" url), andb_false_r.
  by destruct (net sent _).
Qed.

(** A call that returns has made at most one request. *)
Lemma test_tls_supported_sent url sent b sent' :
  TlsTest.test_tls_supported net url sent = Ok (b, sent') →
  sent' = sent ∨ ∃ rq, sent' = (sent ++ [rq])%list.
Proof.
  rewrite test_tls_supported_cases. cbv zeta.
  match goal with |- context [if PyStr.contains "http://" ?u then _ else _] =>
    destruct (PyStr.contains "http://" u) end.
  - destruct (net sent _); intros ?; simplify_eq; eauto.
  - intros ?; simplify_eq. by left.
Qed.

(** A call raises only what its request has raised outside
    [RequestException]. *)
Lemma test_tls_supported_raise url sent e :
  TlsTest.test_tls_supported net url sent = Raise e →
  ∃ rq, net sent rq = Raises e.
Proof.
  rewrite test_tls_supported_cases. cbv zeta.
  match goal with |- context [if PyStr.contains "http://" ?u then _ else _] =>
    destruct (PyStr.contains "http://" u) end; [| done].
  destruct (net sent _) eqn:E; intros ?; simplify_eq. eauto.
Qed.

End ProbeCases.

(** ** cleanup_url *)

Lemma tls_supported_of_known net url provider w b :
  tls_support w !! provider = Some b →
  CleanupFunctions.tls_supported_of net url provider w = Ok (b, w).
Proof. unfold CleanupFunctions.tls_supported_of. by intros ->. Qed.




(** The instance never reports a missing scheme on a URL that starts with
    one of the two schemes which [cleanup_url] writes. *)
Lemma urlsplit_scheme_qualified (url : string) :
  urlsplit_scheme ("http://" +:+ url) ≠ Ok ""
  ∧ urlsplit_scheme ("https://" +:+ url) ≠ Ok "".
Proof.
  split.
  - change (urlsplit_scheme ("http://" +:+ url))
      with (if xorb (has_char "[" (netloc_of (remove_unsafe url)))
                    (has_char "]" (netloc_of (remove_unsafe url)))
            then Raise ValueError else Ok "http").
    by destruct (xorb _ _).
  - change (urlsplit_scheme ("https://" +:+ url))
      with (if xorb (has_char "[" (netloc_of (remove_unsafe url)))
                    (has_char "]" (netloc_of (remove_unsafe url)))
            then Raise ValueError else Ok "https").
    by destruct (xorb _ _).
Qed.

(** C4 does not hold as it is stated: [http://[foo] specifies a scheme,
    yet [cleanup_url] does not return [None] on it: [urlparse] raises
    [ValueError] on the unclosed bracket and so does [cleanup_url]. Nor is
    the function safe on its own output: [[foo] is given the scheme
    [https], and on [https://[foo] a second call raises. *)
Lemma cleanup_url_raises_on_unclosed_bracket :
  CleanupFunctions.cleanup_url urlsplit_scheme (net_always (Status 200))
    "http://[foo" "flickr" (set_tls_support {[ "flickr" := true ]} empty_world)
  = Raise ValueError
  ∧ CleanupFunctions.cleanup_url urlsplit_scheme (net_always (Status 200))
      "[foo" "flickr" (set_tls_support {[ "flickr" := true ]} empty_world)
    = Ok (Some (SqlLiteral "'https://[foo'"),
          set_tls_support {[ "flickr" := true ]} empty_world)
  ∧ CleanupFunctions.cleanup_url urlsplit_scheme (net_always (Status 200))
      "https://[foo" "flickr" (set_tls_support {[ "flickr" := true ]} empty_world)
    = Raise ValueError.
Proof. repeat split; vm_compute; reflexivity. Qed.

(** C4, amended: on a URL in which [urlparse] finds a scheme,
    [cleanup_url] returns [None] and leaves the world alone (no probe, no
    write to the mapping), whatever the mapping says about the provider;
    on a URL on which [urlparse] raises, it raises the same exception.
    Hence, given that [urlparse] never reports a missing scheme on a URL
    starting with one of the two schemes the function writes, a second
    call on the URL inside a literal it has produced never produces a
    replacement: it returns [None], or raises because [urlparse] does. *)
Theorem cleanup_url_keeps_scheme (urlparse_scheme : string → Result string) :
  (∀ net url provider w scheme,
     urlparse_scheme url = Ok scheme → scheme ≠ "" →
     CleanupFunctions.cleanup_url urlparse_scheme net url provider w = Ok (None, w))
  ∧ (∀ net url provider w e,
       urlparse_scheme url = Raise e →
       CleanupFunctions.cleanup_url urlparse_scheme net url provider w = Raise e)
  ∧ ((∀ u, urlparse_scheme ("http://" +:+ u) ≠ Ok ""
           ∧ urlparse_scheme ("https://" +:+ u) ≠ Ok "") →
     ∀ net url provider w clean w',
       CleanupFunctions.cleanup_url urlparse_scheme net url provider w
       = Ok (Some clean, w') →
       ∃ qualified,
         clean = SqlLiteral ("'" +:+ qualified +:+ "'")
         ∧ ∀ net2 provider2 w2,
             CleanupFunctions.cleanup_url urlparse_scheme net2 qualified provider2 w2
             = Ok (None, w2)
             ∨ ∃ e, urlparse_scheme qualified = Raise e
                    ∧ CleanupFunctions.cleanup_url urlparse_scheme net2 qualified
                        provider2 w2 = Raise e).
Proof.
  assert (Hkeep : ∀ net url provider w scheme,
     urlparse_scheme url = Ok scheme → scheme ≠ "" →
     CleanupFunctions.cleanup_url urlparse_scheme net url provider w = Ok (None, w)).
  { intros net url provider w scheme Hs Hne. unfold CleanupFunctions.cleanup_url.
    rewrite Hs. by destruct (String.eqb_spec scheme ""). }
  assert (Hraise : ∀ net url provider w e,
     urlparse_scheme url = Raise e →
     CleanupFunctions.cleanup_url urlparse_scheme net url provider w = Raise e).
  { intros net url provider w e Hs. unfold CleanupFunctions.cleanup_url.
    by rewrite Hs. }
  split; [exact Hkeep |]. split; [exact Hraise |].
  intros Hq net url provider w clean w' H.
  assert (Hagain : ∀ q, urlparse_scheme q ≠ Ok "" →
     ∀ net2 provider2 w2,
       CleanupFunctions.cleanup_url urlparse_scheme net2 q provider2 w2 = Ok (None, w2)
       ∨ ∃ e, urlparse_scheme q = Raise e
              ∧ CleanupFunctions.cleanup_url urlparse_scheme net2 q provider2 w2
                = Raise e).
  { intros q Hne net2 provider2 w2.
    destruct (urlparse_scheme q) as [scheme|e] eqn:E.
    - left. eapply Hkeep; [done |]. by intros ->.
    - right. exists e. split; [done |]. by apply Hraise. }
  unfold CleanupFunctions.cleanup_url in H.
  destruct (urlparse_scheme url) as [scheme|e]; [| done].
  destruct (String.eqb scheme ""); [| done].
  destruct (CleanupFunctions.tls_supported_of net url provider w)
    as [[[|] w1]|e]; simplify_eq.
  - exists ("https://" +:+ url). split; [done |]. apply Hagain, Hq.
  - exists ("http://" +:+ url). split; [done |]. apply Hagain, Hq.
Qed.

Lemma cleanup_url_keeps_scheme_witness :
  CleanupFunctions.cleanup_url urlsplit_scheme (net_always (Status 200))
    "http://example.com/y.jpg" "flickr"
    (set_tls_support {[ "flickr" := true ]} empty_world)
  = Ok (None, set_tls_support {[ "flickr" := true ]} empty_world)
  ∧ CleanupFunctions.cleanup_url urlsplit_scheme (net_always (Status 200))
      "http://[foo" "flickr" empty_world = Raise ValueError
  ∧ ∃ qualified,
      SqlLiteral "'https://www.example.com/x.jpg'"
      = SqlLiteral ("'" +:+ qualified +:+ "'")
      ∧ ∀ net2 provider2 w2,
          CleanupFunctions.cleanup_url urlsplit_scheme net2 qualified provider2 w2
          = Ok (None, w2)
          ∨ ∃ e, urlsplit_scheme qualified = Raise e
                 ∧ CleanupFunctions.cleanup_url urlsplit_scheme net2 qualified
                     provider2 w2 = Raise e.
Proof.
  split; [| split].
  - apply (proj1 (cleanup_url_keeps_scheme urlsplit_scheme) (net_always (Status 200))
             "http://example.com/y.jpg" "flickr" _ "http");
      [vm_compute; reflexivity | discriminate].
  - apply (proj1 (proj2 (cleanup_url_keeps_scheme urlsplit_scheme))).
    vm_compute. reflexivity.
  - apply (proj2 (proj2 (cleanup_url_keeps_scheme urlsplit_scheme))
             urlsplit_scheme_qualified
             (net_always (Status 200)) "www.example.com/x.jpg" "flickr"
             (set_tls_support {[ "flickr" := true ]} empty_world)
             (SqlLiteral "'https://www.example.com/x.jpg'")
             (set_tls_support {[ "flickr" := true ]} empty_world)).
    vm_compute. reflexivity.
Defined.

(** ** The recursion of the probe *)

(** C10: [test_tls_supported] returns on every string, and a call nests at
    most one further call. Two levels of calls always give the result. When
    the URL holds one of the two scheme markers one level is enough: there
    is no recursive call. Otherwise one level is not enough, and the call
    made on the URL with [http://] in front needs one level only: it takes
    a branch that does not recurse. *)
Theorem test_tls_supported_terminates (net : Network) (url : string)
    (sent : list Request) :
  let r := TlsTest.test_tls_supported net url sent in
  (∀ fuel, TlsTest.test_tls_supported_fuel net (2 + fuel) url sent = Some r)
  ∧ (if (PyStr.contains "https://" url || PyStr.contains "http://" url)%bool
     then ∀ fuel, TlsTest.test_tls_supported_fuel net (1 + fuel) url sent = Some r
     else TlsTest.test_tls_supported_fuel net 1 url sent = None
          ∧ PyStr.contains "http://" ("http://" +:+ url) = true
          ∧ ∀ fuel, TlsTest.test_tls_supported_fuel net (1 + fuel)
                      ("http://" +:+ url) sent = Some r).
Proof.
  intros r. split; [intros fuel; apply test_tls_supported_fuel_enough |].
  destruct (PyStr.contains "https://" url || PyStr.contains "http://" url)%bool eqn:Hm.
  - intros fuel.
    destruct (test_tls_supported_fuel_marker net fuel url sent Hm) as [E _].
    destruct (test_tls_supported_fuel_marker net 1 url sent Hm) as [E2 _].
    change (1 + fuel)%nat with (S fuel). rewrite E, <- E2.
    apply (test_tls_supported_fuel_enough net 0).
  - apply orb_false_iff in Hm as [H1 H2].
    split; [| split].
    + by rewrite (test_tls_supported_fuel_no_marker net 0).
    + apply contains_app.
    + intros fuel. change (1 + fuel)%nat with (S fuel).
      rewrite <- (test_tls_supported_fuel_no_marker net (S fuel) url sent H1 H2).
      apply (test_tls_supported_fuel_enough net fuel).
Qed.

(** C5: the three cases are told apart by substring tests, so a scheme
    marker inside the URL is taken for its scheme. A URL that starts with
    [https://] and carries an [http://] URL in its query is not trusted: it
    is rewritten and probed, and a 404 makes the answer false. A URL
    without a scheme that carries one in its query gets no [http://] in
    front: the request is made on a URL without scheme. *)
Theorem test_tls_supported_embedded_marker :
  TlsTest.test_tls_supported (net_always (Status 404))
    "https://example.com/?u=http://b.com" []
  = Ok (false, [GET "https://example.com/?u=https://b.com" 2])
  ∧ TlsTest.test_tls_supported_fuel (net_always RequestException) 1
      "example.com/?u=http://b.com" []
    = Some (Ok (false, [GET "example.com/?u=https://b.com" 2])).
Proof. split; vm_compute; reflexivity. Qed.

(** ** The votes of a provider *)

Section Votes.
Variable net : Network.

Lemma count_votes_cons (b v : bool) (vs : list bool) :
  count_votes b (v :: vs) = (if Bool.eqb b v then 1 else 0) + count_votes b vs.
Proof.
  unfold count_votes. simpl. destruct (Bool.eqb b v); simpl; lia.
Qed.

Lemma count_votes_total (vs : list bool) :
  count_votes true vs + count_votes false vs = Z.of_nat (length vs).
Proof.
  induction vs as [|[|] vs IH]; [done | |];
    rewrite !count_votes_cons; simpl length; simpl Bool.eqb; lia.
Qed.

Lemma tally_votes img_list : ∀ http_score https_score sent r,
  TlsTest.tally net img_list http_score https_score sent = Ok r →
  ∃ sent',
    r = (http_score + count_votes false (votes net img_list sent),
         https_score + count_votes true (votes net img_list sent), sent')
    ∧ length (votes net img_list sent) = length img_list.
Proof.
  induction img_list as [|thumb rest IH]; intros h hs sent r; simpl.
  - intros ?; simplify_eq. exists sent. unfold count_votes. simpl.
    by rewrite !Z.add_0_r.
  - destruct (TlsTest.test_tls_supported net thumb sent) as [[[|] sent1]|e];
      [| | done]; intros H; destruct (IH _ _ _ _ H) as (sent' & -> & Hl);
      exists sent'; rewrite !count_votes_cons; simpl;
      (split; [do 2 f_equal; lia | by rewrite Hl]).
Qed.

Lemma tally_raise img_list : ∀ http_score https_score sent e,
  TlsTest.tally net img_list http_score https_score sent = Raise e →
  raised_by_request net e.
Proof.
  induction img_list as [|thumb rest IH]; intros h hs sent e; simpl; [done |].
  destruct (TlsTest.test_tls_supported net thumb sent) as [[[|] sent1]|e'] eqn:E.
  - apply IH.
  - apply IH.
  - intros ?; simplify_eq.
    destruct (test_tls_supported_raise net _ _ _ E) as [rq Hrq].
    by exists sent, rq.
Qed.

Lemma test_one_provider_decision table db p m sent r :
  TlsTest.test_one_provider net table db p m sent = Ok r →
  ∃ (b : bool) sent',
    r = (<[p := b]> m, sent')
    ∧ (b = true ↔ count_votes true (provider_votes net table db p sent)
                  >= count_votes false (provider_votes net table db p sent))
    ∧ count_votes true (provider_votes net table db p sent)
      + count_votes false (provider_votes net table db p sent)
      = Z.of_nat (length (sample_query db table p)).
Proof.
  unfold TlsTest.test_one_provider, provider_votes.
  destruct (TlsTest.tally net _ 0 0 sent) as [r0|e] eqn:E; [| done].
  destruct (tally_votes _ _ _ _ _ E) as (sent' & -> & Hl).
  rewrite !Z.add_0_l, count_votes_total, Hl, length_map.
  destruct (Z.geb_spec
              (count_votes true (votes net (map sample_image (sample_query db table p)) sent))
              (count_votes false (votes net (map sample_image (sample_query db table p)) sent)))
    as [Hge|Hlt]; intros ?; simplify_eq.
  - exists true, sent'. split; [done |]. split; [| done]. split; [lia | done].
  - exists false, sent'. split; [done |]. split; [| done]. split; [done | lia].
Qed.

Lemma test_one_provider_raise table db p m sent e :
  TlsTest.test_one_provider net table db p m sent = Raise e →
  raised_by_request net e.
Proof.
  unfold TlsTest.test_one_provider.
  destruct (TlsTest.tally net _ 0 0 sent) as [[[h hs] sent1]|e'] eqn:E.
  - by destruct (hs >=? h).
  - intros ?; simplify_eq. by eapply tally_raise.
Qed.

Lemma test_providers_entries table db providers : ∀ m sent r,
  TlsTest.test_providers net table db providers m sent = Ok r →
  (∀ p, p ∈ providers →
     ∃ (b : bool) sent0,
       fst r !! p = Some b
       ∧ (b = true ↔ count_votes true (provider_votes net table db p sent0)
                     >= count_votes false (provider_votes net table db p sent0)))
  ∧ (∀ p, p ∉ providers → fst r !! p = m !! p).
Proof.
  induction providers as [|q rest IH]; intros m sent r; simpl.
  - intros ?; simplify_eq.
    split; [intros p Hp; by apply elem_of_nil in Hp | done].
  - destruct (TlsTest.test_one_provider net table db q m sent) as [[m1 sent1]|e] eqn:E;
      [| done].
    destruct (test_one_provider_decision _ _ _ _ _ _ E) as (b & sent' & Hr & Hb & _).
    simplify_eq. intros H. destruct (IH _ _ _ H) as [IHin IHout].
    split.
    + intros p Hp. destruct (decide (p ∈ rest)) as [Hr|Hr]; [by apply IHin |].
      apply elem_of_cons in Hp as [->|Hp]; [| done].
      exists b, sent. by rewrite (IHout q Hr), lookup_insert_eq.
    + intros p Hp. apply not_elem_of_cons in Hp as [Hne Hr].
      by rewrite (IHout p Hr), lookup_insert_ne.
Qed.

Lemma test_providers_raise table db providers : ∀ m sent e,
  TlsTest.test_providers net table db providers m sent = Raise e →
  raised_by_request net e.
Proof.
  induction providers as [|q rest IH]; intros m sent e; simpl; [done |].
  destruct (TlsTest.test_one_provider net table db q m sent) as [[m1 sent1]|e'] eqn:E.
  - apply IH.
  - intros ?; simplify_eq. by eapply test_one_provider_raise.
Qed.

End Votes.

(** C6: for every provider the prober writes an entry that is true exactly
    when the HTTPS votes on its sample are at least the HTTP votes, a tie
    included; every sampled URL gives one vote or the other; a probe whose
    request raises [RequestException] votes HTTP and raises nothing. The
    tally itself never raises: the prober stops with an exception only when
    a request has raised one that is no [RequestException]. *)
Theorem provider_tls_majority (net : Network) (table : string)
    (upstream_db : UpstreamDb) :
  (∀ p m sent,
     match TlsTest.test_one_provider net table upstream_db p m sent with
     | Ok r =>
         ∃ (b : bool) sent',
           r = (<[p := b]> m, sent')
           ∧ (b = true ↔ count_votes true (provider_votes net table upstream_db p sent)
                         >= count_votes false (provider_votes net table upstream_db p sent))
           ∧ count_votes true (provider_votes net table upstream_db p sent)
             + count_votes false (provider_votes net table upstream_db p sent)
             = Z.of_nat (length (sample_query upstream_db table p))
     | Raise e => raised_by_request net e
     end)
  ∧ (∀ sent,
       match TlsTest.test_provider_tls_images_available net table upstream_db sent with
       | Ok r =>
           ∀ p, p ∈ content_provider upstream_db →
             ∃ (b : bool) sent0,
               fst r !! p = Some b
               ∧ (b = true ↔ count_votes true (provider_votes net table upstream_db p sent0)
                             >= count_votes false (provider_votes net table upstream_db p sent0))
       | Raise e => raised_by_request net e
       end)
  ∧ (∀ url sent rq b,
       TlsTest.test_tls_supported net url sent = Ok (b, (sent ++ [rq])%list) →
       net sent rq = RequestException →
       b = false)
  ∧ (∀ url sent e,
       TlsTest.test_tls_supported net url sent = Raise e →
       ∃ rq, net sent rq = Raises e).
Proof.
  split; [| split; [| split]].
  - intros p m sent.
    destruct (TlsTest.test_one_provider net table upstream_db p m sent) as [r|e] eqn:E.
    + by eapply test_one_provider_decision.
    + by eapply test_one_provider_raise.
  - intros sent. unfold TlsTest.test_provider_tls_images_available.
    destruct (TlsTest.test_providers net table upstream_db
                (content_provider upstream_db) ∅ sent) as [r|e] eqn:E.
    + by apply (proj1 (test_providers_entries net _ _ _ _ _ _ E)).
    + by eapply test_providers_raise.
  - intros url sent rq b. rewrite test_tls_supported_cases. cbv zeta.
    match goal with |- context [if PyStr.contains "http://" ?u then _ else _] =>
      destruct (PyStr.contains "http://" u) end.
    + destruct (net sent _) eqn:En; intros ?; simplify_eq; [| done].
      intros Hnet. congruence.
    + intros H. simplify_eq. exfalso.
      match goal with H : sent = _ |- _ => apply (f_equal length) in H;
        rewrite length_app in H; simpl in H; lia end.
  - intros url sent e. apply test_tls_supported_raise.
Qed.

Lemma provider_tls_majority_witness :
  match TlsTest.test_provider_tls_images_available (net_always RequestException)
          "image" upstream_flickr [] with
  | Ok r =>
      ∀ p, p ∈ content_provider upstream_flickr →
        ∃ (b : bool) sent0,
          fst r !! p = Some b
          ∧ (b = true ↔
             count_votes true (provider_votes (net_always RequestException)
                                 "image" upstream_flickr p sent0)
             >= count_votes false (provider_votes (net_always RequestException)
                                     "image" upstream_flickr p sent0))
  | Raise e => raised_by_request (net_always RequestException) e
  end
  ∧ false = false.
Proof.
  split.
  - apply (proj1 (proj2 (provider_tls_majority (net_always RequestException)
                           "image" upstream_flickr)) []).
  - apply (proj1 (proj2 (proj2 (provider_tls_majority (net_always RequestException)
                                  "image" upstream_flickr)))
             "www.example.com/b.jpg" [] (GET "https://www.example.com/b.jpg" 2) false);
      vm_compute; reflexivity.
Defined.

(** ** Merging the rules of a provider *)

Section DictFacts.
Context {V : Type}.
Implicit Types (d a b : list (string * V)) (k : string) (v : V).

Lemma dict_get_set k v d k' :
  PyDict.get (PyDict.set k v d) k'
  = if String.eqb k k' then Some v else PyDict.get d k'.
Proof.
  induction d as [|[k0 v0] d IH]; simpl.
  - done.
  - destruct (String.eqb_spec k0 k) as [->|Hne]; simpl.
    + destruct (String.eqb k k'); done.
    + rewrite IH. destruct (String.eqb_spec k0 k') as [->|Hne'].
      * destruct (String.eqb_spec k k'); [by subst | done].
      * done.
Qed.

Lemma dict_get_None k d : k ∉ PyDict.keys d → PyDict.get d k = None.
Proof.
  induction d as [|[k0 v0] d IH]; simpl; [done |].
  intros [Hne Hd]%not_elem_of_cons.
  destruct (String.eqb_spec k0 k); [by subst | by apply IH].
Qed.

Lemma dict_get_merge b : ∀ a k,
  NoDup (PyDict.keys b) →
  PyDict.get (PyDict.merge a b) k
  = match PyDict.get b k with
    | Some v => Some v
    | None => PyDict.get a k
    end.
Proof.
  unfold PyDict.merge.
  induction b as [|[k0 v0] b IH]; intros a k Hnd; simpl; [done |].
  apply NoDup_cons in Hnd as [Hk0 Hnd].
  rewrite (IH _ _ Hnd), dict_get_set.
  destruct (String.eqb_spec k0 k) as [->|Hne]; [| done].
  by rewrite (dict_get_None k b Hk0).
Qed.


Lemma dict_set_keys k v d k' :
  k' ∈ PyDict.keys (PyDict.set k v d) ↔ k' = k ∨ k' ∈ PyDict.keys d.
Proof.
  unfold PyDict.keys. induction d as [|[k0 v0] d IH]; simpl.
  - rewrite list_elem_of_singleton, elem_of_nil. tauto.
  - destruct (String.eqb_spec k0 k) as [->|Hne]; simpl.
    + rewrite !elem_of_cons. tauto.
    + rewrite !elem_of_cons, IH. tauto.
Qed.


Lemma dict_set_all_keys (frs : list (string * V)) : ∀ d k,
  k ∈ PyDict.keys (fold_left (fun d kv => PyDict.set (fst kv) (snd kv) d) frs d)
  ↔ k ∈ PyDict.keys d ∨ k ∈ PyDict.keys frs.
Proof.
  induction frs as [|[k0 v0] frs IH]; intros d k; simpl.
  - unfold PyDict.keys at 2. simpl. rewrite elem_of_nil. tauto.
  - rewrite IH, dict_set_keys. unfold PyDict.keys at 4. simpl.
    rewrite elem_of_cons. unfold PyDict.keys. tauto.
Qed.

End DictFacts.

(** C8: the rules a worker applies to a row of a provider that has an
    entry of its own are that entry merged over the global rules: a field
    the provider names gets the provider's function, any other field keeps
    the global one; for a provider without an entry they are the global
    rules themselves. *)
Theorem fields_to_update_merge (providers_config : gmap string FieldTable)
    (global_field_to_func : FieldTable) (provider : string) :
  (∀ provider_field_to_func,
     providers_config !! provider = Some provider_field_to_func →
     NoDup (PyDict.keys provider_field_to_func) →
     ∀ field,
       PyDict.get (fields_to_update providers_config global_field_to_func provider) field
       = match PyDict.get provider_field_to_func field with
         | Some cleaning_func => Some cleaning_func
         | None => PyDict.get global_field_to_func field
         end)
  ∧ (providers_config !! provider = None →
     fields_to_update providers_config global_field_to_func provider
     = global_field_to_func).
Proof.
  unfold fields_to_update. split.
  - intros pf -> Hnd field. by apply dict_get_merge.
  - by intros ->.
Qed.

Lemma fields_to_update_merge_witness :
  (∀ field,
     PyDict.get (fields_to_update providers_with_override
                   [("tags", Fn_cleanup_tags); ("url", Fn_cleanup_url)] "flickr") field
     = match PyDict.get [("url", Fn_cleanup_tags); ("title", Fn_cleanup_url)] field with
       | Some cleaning_func => Some cleaning_func
       | None => PyDict.get [("tags", Fn_cleanup_tags); ("url", Fn_cleanup_url)] field
       end)
  ∧ fields_to_update providers_with_override
      [("tags", Fn_cleanup_tags); ("url", Fn_cleanup_url)] "met"
    = [("tags", Fn_cleanup_tags); ("url", Fn_cleanup_url)].
Proof.
  split.
  - apply (proj1 (fields_to_update_merge providers_with_override
                    [("tags", Fn_cleanup_tags); ("url", Fn_cleanup_url)] "flickr")).
    + vm_compute. reflexivity.
    + apply (bool_decide_unpack _). vm_compute. exact I.
  - apply (proj2 (fields_to_update_merge providers_with_override
                    [("tags", Fn_cleanup_tags); ("url", Fn_cleanup_url)] "met")).
    vm_compute. reflexivity.
Defined.

(** ** The worker, row by row *)

Section WorkerFacts.
Variable urlparse_scheme : string → Result string.
Variable net : Network.

(** A cleanup call touches neither the statements nor the call log, and a
    replacement it returns is a true value. *)
Lemma call_cleaning_func_frame cleaning_func dirty_value provider w clean w' :
  call_cleaning_func urlparse_scheme net cleaning_func dirty_value provider w
  = Ok (clean, w') →
  executed w' = executed w ∧ committed w' = committed w ∧ calls w' = calls w
  ∧ (is_Some clean → clean_truthy clean = true).
Proof.
  unfold call_cleaning_func. destruct cleaning_func.
  - destruct (CleanupFunctions.cleanup_tags dirty_value) as [c|e] eqn:E; [| done].
    intros ?; simplify_eq. repeat split; try done.
    intros [c Hc]; subst. by destruct (cleanup_tags_inv _ _ E) as (? & _ & -> & _).
  - destruct dirty_value as [| |url|]; try done.
    unfold CleanupFunctions.cleanup_url, CleanupFunctions.tls_supported_of.
    destruct (urlparse_scheme url) as [scheme|e]; [| done].
    destruct (String.eqb scheme "").
    + destruct (tls_support w !! provider) as [b|].
      * destruct b; intros ?; simplify_eq; done.
      * destruct (TlsTest.test_tls_supported net url (sent w)) as [[[|] sent1]|e];
          intros ?; simplify_eq; done.
    + intros ?; simplify_eq. repeat split; try done.
Qed.

Lemma clean_field_spec rules row provider update_field cleaned_data w cd' w' :
  clean_field urlparse_scheme net rules row provider update_field cleaned_data w
  = Ok (cd', w') →
  executed w' = executed w ∧ committed w' = committed w
  ∧ if has_value row update_field
    then ∃ cleaning_func dirty_value clean,
           row_get row update_field = Some dirty_value
           ∧ PyDict.get rules update_field = Some cleaning_func
           ∧ calls w' = (calls w ++ [mkCall update_field cleaning_func dirty_value clean])%list
           ∧ cd' = match clean with
                   | Some c => PyDict.set update_field c cleaned_data
                   | None => cleaned_data
                   end
    else calls w' = calls w ∧ cd' = cleaned_data.
Proof.
  unfold clean_field, has_value.
  destruct (row_get row update_field) as [dirty_value|]; [| done].
  destruct (truthy dirty_value); cbn [negb].
  - destruct (PyDict.get rules update_field) as [cleaning_func|]; [| done].
    unfold bind.
    destruct (call_cleaning_func urlparse_scheme net cleaning_func dirty_value provider w)
      as [[clean w1]|e] eqn:E; [| done].
    destruct (call_cleaning_func_frame _ _ _ _ _ _ E) as (He & Hc & Hl & Ht).
    intros H. split; [| split].
    + destruct clean as [c|]; [destruct (clean_truthy (Some c)) |];
        simplify_eq; simpl; done.
    + destruct clean as [c|]; [destruct (clean_truthy (Some c)) |];
        simplify_eq; simpl; done.
    + exists cleaning_func, dirty_value, clean.
      destruct clean as [c|].
      * rewrite Ht in H by eauto. simplify_eq. simpl. by rewrite Hl.
      * simplify_eq. simpl. by rewrite Hl.
  - unfold ret. intros ?; by simplify_eq.
Qed.

Lemma clean_fields_spec rules row provider update_fields :
  ∀ cleaned_data w cd' w',
  clean_fields urlparse_scheme net rules row provider update_fields cleaned_data w
  = Ok (cd', w') →
  ∃ new_calls,
    calls w' = (calls w ++ new_calls)%list
    ∧ map call_field new_calls = List.filter (has_value row) update_fields
    ∧ Forall (call_of rules row) new_calls
    ∧ cd' = fold_left (fun d kv => PyDict.set (fst kv) (snd kv) d)
              (fragments new_calls) cleaned_data
    ∧ executed w' = executed w ∧ committed w' = committed w.
Proof.
  induction update_fields as [|f rest IH]; intros cd w cd' w' H; simpl in H.
  - unfold ret in H. simplify_eq. exists []. by rewrite app_nil_r.
  - unfold bind in H.
    destruct (clean_field urlparse_scheme net rules row provider f cd w)
      as [[cd1 w1]|e] eqn:E; [| done].
    destruct (clean_field_spec _ _ _ _ _ _ _ _ E) as (He & Hc & Hf).
    destruct (IH _ _ _ _ H) as (cs & Hcs & Hmap & HF & Hcd & He' & Hc').
    simpl. destruct (has_value row f) eqn:Hv.
    + destruct Hf as (fn & v & clean & Hrow & Hget & Hcalls & Hcd1).
      exists (mkCall f fn v clean :: cs).
      split; [by rewrite Hcs, Hcalls, <- app_assoc |].
      split; [simpl; by rewrite Hmap |].
      split.
      { constructor; [| done]. unfold call_of; simpl. repeat split; try done.
        unfold has_value in Hv. by rewrite Hrow in Hv. }
      split; [| by rewrite He', Hc', He, Hc].
      unfold fragments. simpl. destruct clean as [c|]; simpl; by subst.
    + destruct Hf as [Hcalls ->].
      exists cs. rewrite Hcs, Hcalls, He', Hc', He, Hc. done.
Qed.

End WorkerFacts.





(** ** Dividing a batch *)

Lemma py_slice_length {A} (l : list A) (start stop : Z) :
  0 ≤ start → 0 ≤ stop ≤ Z.of_nat (length l) →
  length (py_slice l start stop) = Z.to_nat (stop - start).
Proof.
  intros H0 [H1 H2]. unfold py_slice, slice_bound.
  destruct (Z.ltb_spec start 0); [lia |].
  destruct (Z.ltb_spec stop 0); [lia |].
  rewrite length_take, length_drop. lia.
Qed.

Lemma py_slice_all {A} (l : list A) : py_slice l 0 (Z.of_nat (length l)) = l.
Proof.
  unfold py_slice, slice_bound.
  destruct (Z.ltb_spec (Z.of_nat (length l)) 0); [lia |]. simpl.
  rewrite Z.min_id, (Z.min_l 0) by lia.
  rewrite Z.sub_0_r, Nat2Z.id. apply firstn_all.
Qed.

Lemma scheduled_rows_snoc (jobs : list Job) (j : Job) :
  scheduled_rows (jobs ++ [j]) = (scheduled_rows jobs ++ job_rows j)%list.
Proof.
  unfold scheduled_rows. rewrite map_app, concat_app. simpl. by rewrite app_nil_r.
Qed.

(** After the first job, every job loses the row at its lower bound. *)
Lemma divide_work_length batch temp_table cfg tls job_size (m : nat) :
  ∀ (k : nat) jobs,
  0 ≤ job_size →
  job_size * Z.of_nat (k + m) ≤ Z.of_nat (length batch) →
  length (scheduled_rows
            (divide_work batch temp_table cfg tls job_size
               (map (fun i => Z.of_nat i) (seq (S k) m))
               (job_size * Z.of_nat k) jobs))
  = (length (scheduled_rows jobs) + m * Z.to_nat (job_size - 1))%nat.
Proof.
  induction m as [|m IH]; intros k jobs Hjs Hlen; simpl.
  - lia.
  - change (Z.pos (Pos.of_succ_nat k)) with (Z.of_nat (S k)).
    rewrite (IH (S k)); [| done | by replace (S k + m)%nat with (k + S m)%nat by lia].
    rewrite scheduled_rows_snoc, length_app. simpl.
    rewrite py_slice_length; [| nia | nia].
    replace (job_size * Z.of_nat (S k) - (job_size * Z.of_nat k + 1))
      with (job_size - 1) by lia.
    lia.
Qed.

(** X1: with two workers or more, some row of every non-empty batch is
    handed to no worker. *)
Lemma schedule_jobs_loses_rows batch table cfg tls (num_workers : Z) :
  2 ≤ num_workers → batch ≠ [] →
  ∃ jobs, schedule_jobs batch table cfg tls num_workers = Ok jobs
          ∧ (length (scheduled_rows jobs) < length batch)%nat.
Proof.
  intros HN Hne. unfold schedule_jobs.
  destruct (Z.eqb_spec num_workers 0); [lia |].
  eexists. split; [done |].
  set (len := Z.of_nat (length batch)).
  set (js := Z.quot len num_workers).
  assert (Hlen : 1 ≤ len) by (destruct batch; [done | simpl in *; lia]).
  assert (Hjs : 0 ≤ js) by (apply Z.quot_pos; lia).
  assert (Hmul : js * num_workers ≤ len).
  { unfold js. rewrite Z.quot_div_nonneg by lia.
    rewrite Z.mul_comm. apply Z.mul_div_le. lia. }
  unfold worker_numbers.
  destruct (Z.to_nat num_workers) as [|m] eqn:Em; [lia |].
  cbn [seq map divide_work app]. change (Z.of_nat 1) with 1.
  change (-1 + 1) with 0.
  replace (js * 1) with (js * Z.of_nat 1) at 2 by lia.
  rewrite (divide_work_length batch _ cfg tls js m 1); [| done | nia].
  unfold scheduled_rows at 1. simpl. rewrite app_nil_r.
  rewrite py_slice_length; [| lia | fold len; nia].
  assert (Hm : Z.of_nat m = num_workers - 1) by lia.
  apply Nat2Z.inj_lt. rewrite Nat2Z.inj_add, Nat2Z.inj_mul. fold len.
  destruct (Z.eq_dec js 0) as [->|Hjs0].
  - simpl. lia.
  - rewrite !Z2Nat.id by lia. nia.
Qed.

Lemma schedule_jobs_one_worker batch table cfg tls :
  ∃ jobs, schedule_jobs batch table cfg tls 1 = Ok jobs
          ∧ scheduled_rows jobs = batch.
Proof.
  unfold schedule_jobs. simpl. eexists. split; [done |].
  unfold scheduled_rows. simpl. rewrite app_nil_r.
  rewrite Z.quot_1_r, Z.mul_1_r. apply py_slice_all.
Qed.

(** C1: four rows divided among two workers. The job size is 2; the first
    job is rows 0 and 1, the second starts one past the end of the first
    and is row 3 alone: row 2 is handed to no worker. *)
Theorem schedule_jobs_drops_boundary_row :
  schedule_jobs batch_of_four "image" ∅ ∅ 2
  = Ok [ mkJob [numbered_row 0; numbered_row 1] "temp_import_image" ∅ ∅;
         mkJob [numbered_row 3] "temp_import_image" ∅ ∅ ]
  ∧ numbered_row 2 ∈ batch_of_four
  ∧ numbered_row 2 ∉ scheduled_rows
      [ mkJob [numbered_row 0; numbered_row 1] "temp_import_image" ∅ ∅;
        mkJob [numbered_row 3] "temp_import_image" ∅ ∅ ].
Proof.
  split; [vm_compute; reflexivity |]. split.
  - unfold batch_of_four. simpl. do 2 apply list_elem_of_further.
    apply list_elem_of_here.
  - unfold scheduled_rows, numbered_row. simpl. intros H.
    repeat (apply elem_of_cons in H as [H|H]; [discriminate H |]).
    by apply elem_of_nil in H.
Qed.

(** ** The definitions at work *)

Example contains_marker :
  PyStr.contains "http://" "www.example.com/x.jpg" = false
  ∧ PyStr.contains "http://" "see http://example.com" = true
  ∧ PyStr.contains "http://" "https://example.com" = false.
Proof. by vm_compute. Qed.

Example replace_every_marker :
  PyStr.replace "http://" "https://" "http://a.org/?next=http://b.org"
  = "https://a.org/?next=https://b.org".
Proof. by vm_compute. Qed.

Example lower_mixed_case : PyStr.lower "By-NC-SA" = "by-nc-sa".
Proof. by vm_compute. Qed.

Example slice_past_the_end :
  py_slice [1; 2; 3; 4] 3 9 = [4] ∧ py_slice [1; 2; 3; 4] 2 2 = []
  ∧ py_slice [1; 2; 3; 4] 1 0 = [].
Proof. by vm_compute. Qed.

Example image_table_config :
  _cleanup_config !! "image" = Some {[ "*" := image_rules ]}.
Proof. by vm_compute. Qed.

(** The first end-to-end example of the specification: one [flickr] row
    with the tags [cc0] and [sunset] and the URL [www.example.com/x.jpg],
    under a mapping that says [flickr] supports TLS. The worker commits one
    UPDATE that writes the retained tag and the [https] URL. *)
Example worker_end_to_end :
  ∃ w', _clean_data_worker urlsplit_scheme (net_always RequestException) json_stub
          [row_flickr] "temp_import_image" {[ "*" := image_rules ]}
          {[ "flickr" := true ]} empty_world = Ok (true, w')
        ∧ committed w'
          = [update_query "temp_import_image"
               [field_expression json_stub ("tags", Json [tag_sunset]);
                "url = 'https://www.example.com/x.jpg'"] 7]
        ∧ sent w' = [].
Proof. eexists. split; [by vm_compute | by vm_compute]. Qed.

(** The second one: a URL that already reads [http://] is left alone,
    whatever the mapping says. *)
Example worker_leaves_qualified_url :
  ∀ tls_supported : bool,
  ∃ w', _clean_data_worker urlsplit_scheme (net_always (Status 200)) json_stub
          [row_cleaned] "temp_import_image" {[ "*" := image_rules ]}
          {[ "flickr" := tls_supported ]} empty_world = Ok (true, w')
        ∧ committed w' = [] ∧ sent w' = [].
Proof. intros [|]; eexists; (split; [by vm_compute | by vm_compute]). Qed.

(** The text of a statement, with the line breaks and the indentation of
    the source. *)
Example update_query_text :
  update_query "temp_import_image" ["url = 'http://a.org/1.jpg'"] 12
  = nl +:+ "                UPDATE temp_import_image SET url = 'http://a.org/1.jpg'"
       +:+ " WHERE id = 12" +:+ nl +:+ "            ".
Proof. by vm_compute. Qed.

(** ** More on dividing a batch *)

Lemma take_le_sublist {A} (l : list A) (a b : nat) :
  (a ≤ b)%nat → sublist (take a l) (take b l).
Proof.
  revert a b. induction l as [|x l IH]; intros a b Hab.
  - destruct a, b; constructor.
  - destruct a as [|a]; [apply sublist_nil_l |].
    destruct b as [|b]; [lia |]. simpl. apply sublist_skip, IH. lia.
Qed.

Lemma take_app_drop {A} (l : list A) (a n : nat) :
  (take a l ++ take n (drop a l))%list = take (a + n) l.
Proof.
  revert a. induction l as [|x l IH]; intros a.
  - by destruct a, n.
  - destruct a as [|a]; simpl; [done |]. by rewrite IH.
Qed.

(** The rows of the jobs lie, in order, before the next lower bound. *)
Lemma divide_work_sublist batch temp_table cfg tls job_size (m : nat) :
  ∀ (k : nat) last_end jobs,
  0 ≤ job_size → -1 ≤ last_end → last_end ≤ job_size * Z.of_nat (S k) →
  sublist (scheduled_rows jobs)
    (take (Z.to_nat (slice_bound (Z.of_nat (length batch)) (last_end + 1))) batch) →
  sublist (scheduled_rows
             (divide_work batch temp_table cfg tls job_size
                (map (fun i => Z.of_nat i) (seq (S k) m)) last_end jobs))
    batch.
Proof.
  induction m as [|m IH]; intros k last jobs Hjs Hlast Hle Hsub.
  - simpl. etrans; [exact Hsub | apply sublist_take].
  - cbn [seq map divide_work].
    apply (IH (S k)); [done | nia | nia |].
    rewrite scheduled_rows_snoc. cbn [job_rows]. unfold py_slice.
    set (len := Z.of_nat (length batch)) in *.
    set (lo := slice_bound len (last + 1)) in *.
    set (hi := slice_bound len (job_size * Z.of_nat (S k))).
    set (lo' := slice_bound len (job_size * Z.of_nat (S k) + 1)).
    etrans; [apply sublist_app; [exact Hsub | reflexivity] |].
    rewrite take_app_drop. apply take_le_sublist.
    unfold lo, hi, lo', slice_bound in *.
    repeat match goal with |- context [?a <? 0] => destruct (Z.ltb_spec a 0) end;
      lia.
Qed.

Lemma schedule_jobs_loses_rows_witness :
  ∃ jobs, schedule_jobs batch_of_four "image" ∅ ∅ 3 = Ok jobs
          ∧ (length (scheduled_rows jobs) < length batch_of_four)%nat.
Proof.
  apply (schedule_jobs_loses_rows batch_of_four "image" ∅ ∅ 3);
    [lia | discriminate].
Defined.

(** X2: with a single worker the one job is the whole batch. *)
Theorem schedule_jobs_single_worker_complete batch table cfg tls :
  schedule_jobs batch table cfg tls 1
  = Ok [mkJob batch ("temp_import_" +:+ table) cfg tls].
Proof.
  unfold schedule_jobs. simpl. rewrite Z.quot_1_r, Z.mul_1_r.
  by rewrite py_slice_all.
Qed.

(** X3: the rows handed to the workers, taken job after job, are rows of
    the batch in the order of the batch: no row is handed out twice and
    none is reordered. *)
Theorem schedule_jobs_sublist batch table cfg tls (num_workers : Z) jobs :
  schedule_jobs batch table cfg tls num_workers = Ok jobs →
  sublist (scheduled_rows jobs) batch.
Proof.
  unfold schedule_jobs. destruct (Z.eqb_spec num_workers 0); [done |].
  intros H. simplify_eq. unfold worker_numbers.
  destruct (Z.to_nat num_workers) as [|m] eqn:Em; [apply sublist_nil_l |].
  assert (HN : 0 < num_workers) by lia.
  change (seq 1 (S m)) with (seq 1 (S m)).
  apply divide_work_sublist.
  - apply Z.quot_pos; lia.
  - lia.
  - assert (0 ≤ Z.of_nat (length batch) `quot` num_workers)
      by (apply Z.quot_pos; lia). lia.
  - apply sublist_nil_l.
Qed.

Lemma schedule_jobs_sublist_witness :
  sublist [numbered_row 0; numbered_row 1; numbered_row 3] batch_of_four.
Proof.
  apply (schedule_jobs_sublist batch_of_four "image" ∅ ∅ 2
           [ mkJob [numbered_row 0; numbered_row 1] "temp_import_image" ∅ ∅;
             mkJob [numbered_row 3] "temp_import_image" ∅ ∅ ]).
  vm_compute. reflexivity.
Defined.

Lemma divide_work_zero_size batch temp_table cfg tls ns :
  ∀ last_end jobs, -1 ≤ last_end →
  Forall (fun n => 0 ≤ n) ns →
  scheduled_rows (divide_work batch temp_table cfg tls 0 ns last_end jobs)
  = scheduled_rows jobs.
Proof.
  induction ns as [|n ns IH]; intros last jobs Hlast Hns; [done |].
  apply Forall_cons in Hns as [Hn Hns].
  cbn [divide_work]. rewrite IH by (done || lia).
  rewrite scheduled_rows_snoc. cbn [job_rows].
  unfold py_slice, slice_bound. simpl.
  destruct (Z.ltb_spec (last + 1) 0); [lia |].
  replace (Z.to_nat _) with 0%nat by lia. simpl. by rewrite app_nil_r.
Qed.

Lemma divide_work_jobs batch temp_table cfg tls job_size ns :
  ∀ last_end jobs,
  Forall (fun j => job_temp_table j = temp_table ∧ job_provider_config j = cfg
                   ∧ job_tls_support j = tls) jobs →
  length (divide_work batch temp_table cfg tls job_size ns last_end jobs)
  = (length jobs + length ns)%nat
  ∧ Forall (fun j => job_temp_table j = temp_table ∧ job_provider_config j = cfg
                     ∧ job_tls_support j = tls)
      (divide_work batch temp_table cfg tls job_size ns last_end jobs).
Proof.
  induction ns as [|n ns IH]; intros last jobs HF; simpl.
  - split; [lia | done].
  - destruct (IH (job_size * n)
                (jobs ++ [mkJob (py_slice batch (last + 1) (job_size * n))
                            temp_table cfg tls])%list) as [Hlen HF'].
    { apply Forall_app. split; [done |]. by constructor. }
    split; [| done]. rewrite Hlen, length_app. simpl. lia.
Qed.

(** X4: a batch with fewer rows than workers is not cleaned at all: the
    job size is 0 and every job is empty. *)
Theorem schedule_jobs_short_batch batch table cfg tls (num_workers : Z) :
  Z.of_nat (length batch) < num_workers →
  ∃ jobs, schedule_jobs batch table cfg tls num_workers = Ok jobs
          ∧ scheduled_rows jobs = []
          ∧ length jobs = Z.to_nat num_workers.
Proof.
  intros Hlt. unfold schedule_jobs.
  destruct (Z.eqb_spec num_workers 0); [lia |].
  eexists. split; [done |].
  rewrite Z.quot_small by lia. split.
  - apply divide_work_zero_size; [lia |].
    unfold worker_numbers. apply Forall_forall. intros k Hk.
    apply list_elem_of_fmap in Hk as (i & -> & _). lia.
  - destruct (divide_work_jobs batch ("temp_import_" +:+ table) cfg tls 0
                (worker_numbers num_workers) (-1) []) as [-> _]; [constructor |].
    unfold worker_numbers. by rewrite length_map, length_seq.
Qed.

Lemma schedule_jobs_short_batch_witness :
  ∃ jobs, schedule_jobs batch_of_four "image" ∅ ∅ 8 = Ok jobs
          ∧ scheduled_rows jobs = []
          ∧ length jobs = Z.to_nat 8.
Proof.
  apply (schedule_jobs_short_batch batch_of_four "image" ∅ ∅ 8).
  vm_compute. reflexivity.
Defined.

(** X5: one job is made per worker, whatever the size of the batch, and
    every job carries the same table name [temp_import_<table>], the same
    rule table and the same TLS mapping. *)
Theorem schedule_jobs_one_job_per_worker batch table cfg tls (num_workers : Z) jobs :
  schedule_jobs batch table cfg tls num_workers = Ok jobs →
  length jobs = Z.to_nat num_workers
  ∧ Forall (fun j => job_temp_table j = "temp_import_" +:+ table
                     ∧ job_provider_config j = cfg
                     ∧ job_tls_support j = tls) jobs.
Proof.
  unfold schedule_jobs. destruct (Z.eqb_spec num_workers 0); [done |].
  intros H. simplify_eq.
  destruct (divide_work_jobs batch ("temp_import_" +:+ table) cfg tls
              (Z.of_nat (length batch) `quot` num_workers)
              (worker_numbers num_workers) (-1) []) as [Hlen HF]; [constructor |].
  split; [| done]. rewrite Hlen. unfold worker_numbers.
  by rewrite length_map, length_seq.
Qed.

Lemma schedule_jobs_one_job_per_worker_witness :
  length [ mkJob [numbered_row 0; numbered_row 1] "temp_import_image" ∅ ∅;
           mkJob [numbered_row 3] "temp_import_image" ∅ ∅ ] = Z.to_nat 2
  ∧ Forall (fun j => job_temp_table j = "temp_import_" +:+ "image"
                     ∧ job_provider_config j = ∅
                     ∧ job_tls_support j = ∅)
      [ mkJob [numbered_row 0; numbered_row 1] "temp_import_image" ∅ ∅;
        mkJob [numbered_row 3] "temp_import_image" ∅ ∅ ].
Proof.
  apply (schedule_jobs_one_job_per_worker batch_of_four "image" ∅ ∅ 2).
  vm_compute. reflexivity.
Defined.

(** ** More on cleanup_tags *)

Lemma should_filter_raise (t : Tag) (e : Exn) :
  CleanupFunctions.should_filter t = Raise e ↔ e = KeyError ∧ tag_name t = None.
Proof.
  unfold CleanupFunctions.should_filter. destruct (tag_name t).
  - split; [done | by intros [_ ?]].
  - split; [intros ?; by simplify_eq | by intros [-> _]].
Qed.

Lemma cleanup_tags_loop_raise tags (e : Exn) : ∀ tag_output update_required,
  CleanupFunctions.cleanup_tags_loop tags tag_output update_required = Raise e
  ↔ e = KeyError ∧ ∃ t, t ∈ tags ∧ tag_name t = None.
Proof.
  induction tags as [|t tags IH]; intros out ur; simpl.
  - split; [done |]. intros [_ (t & Ht & _)]. by apply elem_of_nil in Ht.
  - destruct (CleanupFunctions.should_filter t) as [[|]|e'] eqn:E.
    + rewrite IH. split; intros [-> (t' & Ht' & Hn)]; (split; [done |]).
      * exists t'. split; [by apply elem_of_cons; right | done].
      * apply elem_of_cons in Ht' as [->|Ht']; [| by exists t'].
        unfold CleanupFunctions.should_filter in E. by rewrite Hn in E.
    + rewrite IH. split; intros [-> (t' & Ht' & Hn)]; (split; [done |]).
      * exists t'. split; [by apply elem_of_cons; right | done].
      * apply elem_of_cons in Ht' as [->|Ht']; [| by exists t'].
        unfold CleanupFunctions.should_filter in E. by rewrite Hn in E.
    + apply should_filter_raise in E as [-> Hn]. split.
      * intros ?; simplify_eq. split; [done |]. exists t.
        split; [by apply elem_of_cons; left | done].
      * by intros [-> _].
Qed.

(** X6: a tag without a [name] key makes [cleanup_tags] fail wherever it
    stands in the collection: the call raises and returns nothing, the
    tags before and after the bad one are not cleaned either. *)
Theorem cleanup_tags_raises_on_missing_name (tags : list Tag) :
  (∃ t, t ∈ tags ∧ tag_name t = None) →
  ∃ e, CleanupFunctions.cleanup_tags (VTags tags) = Raise e.
Proof.
  intros Hbad. exists KeyError. unfold CleanupFunctions.cleanup_tags.
  destruct tags as [|t0 tags0]; cbn [truthy negb].
  - destruct Hbad as (t & Ht & _). by apply elem_of_nil in Ht.
  - assert (E : CleanupFunctions.cleanup_tags_loop (t0 :: tags0) [] false
                = Raise KeyError) by by apply cleanup_tags_loop_raise.
    by rewrite E.
Qed.

Lemma cleanup_tags_raises_on_missing_name_witness :
  ∃ e, CleanupFunctions.cleanup_tags
         (VTags [tag_sunset; mkTag None (Some 1.0%float); tag_cc0]) = Raise e.
Proof.
  apply (cleanup_tags_raises_on_missing_name
           [tag_sunset; mkTag None (Some 1.0%float); tag_cc0]).
  exists (mkTag None (Some 1.0%float)). split; [| reflexivity].
  apply list_elem_of_further, list_elem_of_here.
Defined.

Lemma cleanup_tags_loop_total tags : ∀ tag_output update_required,
  Forall (fun t => is_Some (tag_name t)) tags →
  CleanupFunctions.cleanup_tags_loop tags tag_output update_required
  = Ok ((tag_output ++ List.filter retained tags)%list,
        (update_required
         || match List.filter retained tags with [] => false | _ => true end)%bool).
Proof.
  intros out ur HF.
  destruct (CleanupFunctions.cleanup_tags_loop tags out ur) as [[out' ur']|e] eqn:E.
  - by destruct (cleanup_tags_loop_spec _ _ _ _ _ E) as (-> & -> & _).
  - apply cleanup_tags_loop_raise in E as [_ (t & Ht & Hn)].
    rewrite Forall_forall in HF. destruct (HF t Ht) as [? ?]. congruence.
Qed.

Lemma filter_all {A} (f : A → bool) (l : list A) :
  Forall (fun x => f x = true) l → List.filter f l = l.
Proof.
  induction 1 as [|x l Hx _ IH]; simpl; [done |]. by rewrite Hx, IH.
Qed.

Lemma cleanup_tags_all_retained (tags : list Tag) :
  tags ≠ [] → Forall (fun t => retained t = true) tags →
  CleanupFunctions.cleanup_tags (VTags tags) = Ok (Some (Json tags)).
Proof.
  intros Hne HF. unfold CleanupFunctions.cleanup_tags.
  destruct tags as [|t0 tags0]; [done |]. cbn [truthy negb].
  rewrite cleanup_tags_loop_total.
  - rewrite (filter_all _ _ HF). done.
  - eapply Forall_impl; [exact HF |]. intros t Ht. unfold retained in Ht.
    unfold CleanupFunctions.should_filter in Ht.
    destruct (tag_name t); [eauto | done].
Qed.

(** X7: a non-empty collection from which nothing is filtered does not
    give [None]: the function returns a replacement that is the input
    itself, so an update is asked for although no tag changes. *)
Theorem cleanup_tags_unchanged_still_updates (tags : list Tag) :
  tags ≠ [] →
  (∀ t, t ∈ tags → is_Some (tag_name t) ∧ ¬ (blacklisted t ∨ low_accuracy t)) →
  CleanupFunctions.cleanup_tags (VTags tags) = Ok (Some (Json tags)).
Proof.
  intros Hne H. apply cleanup_tags_all_retained; [done |].
  apply Forall_forall. intros t Ht. destruct (H t Ht) as [Hn Hf].
  by apply retained_iff.
Qed.

Lemma cleanup_tags_unchanged_still_updates_witness :
  CleanupFunctions.cleanup_tags (VTags [tag_sunset]) = Ok (Some (Json [tag_sunset])).
Proof.
  apply (cleanup_tags_unchanged_still_updates [tag_sunset]); [discriminate |].
  intros t ->%list_elem_of_singleton. split; [by eexists |].
  intros [(n & Hn & Hin) | (a & Ha & Hlt)].
  - unfold tag_sunset in Hn. simpl in Hn. simplify_eq.
    revert Hin. apply (bool_decide_eq_false_1 _). vm_compute. reflexivity.
  - unfold tag_sunset in Ha. simpl in Ha. injection Ha as <-.
    vm_compute in Hlt. discriminate Hlt.
Defined.

(** X8: [cleanup_tags] is idempotent on what it produces: called on the
    tags of a replacement it has returned, it returns the same
    replacement again. *)
Theorem cleanup_tags_idempotent (v : Value) (tag_output : list Tag) :
  CleanupFunctions.cleanup_tags v = Ok (Some (Json tag_output)) →
  CleanupFunctions.cleanup_tags (VTags tag_output) = Ok (Some (Json tag_output)).
Proof.
  intros H. destruct (cleanup_tags_inv _ _ H) as (tags & -> & Hout & Hne & _).
  simplify_eq. apply cleanup_tags_all_retained; [done |].
  apply Forall_forall. intros t Ht.
  by apply list_elem_of_In, filter_In in Ht as [_ Ht].
Qed.

Lemma cleanup_tags_idempotent_witness :
  CleanupFunctions.cleanup_tags (VTags [tag_sunset]) = Ok (Some (Json [tag_sunset])).
Proof.
  apply (cleanup_tags_idempotent (VTags [tag_cc0; tag_sunset]) [tag_sunset]).
  vm_compute. reflexivity.
Defined.

(** ** More on the probe *)

Lemma prefix_contains (p s : string) :
  PyStr.contains p s = false → String.prefix p s = false.
Proof.
  destruct s; cbn [PyStr.contains]; by destruct (String.prefix p _).
Qed.

Lemma replace_absent (old new s : string) :
  PyStr.contains old s = false → PyStr.replace old new s = s.
Proof.
  unfold PyStr.replace. induction s as [|c s IH]; intros H; [done |].
  pose proof (prefix_contains _ _ H) as Hp.
  cbn [PyStr.contains] in H. rewrite Hp in H.
  cbn [PyStr.replace_from]. rewrite Hp. by rewrite IH.
Qed.

Lemma replace_from_skip (old new pre s : string) :
  PyStr.replace_from old new (String.length pre) (pre +:+ s)
  = PyStr.replace_from old new 0 s.
Proof.
  induction pre as [|c pre IH]; [done |]. simpl. exact IH.
Qed.

Lemma replace_prefix (c : ascii) (old new s : string) :
  PyStr.replace (String c old) new (String c old +:+ s)
  = new +:+ PyStr.replace (String c old) new s.
Proof.
  unfold PyStr.replace.
  change (String c old +:+ s) with (String c (old +:+ s)).
  cbn [PyStr.replace_from].
  change (String c (old +:+ s)) with (String c old +:+ s).
  rewrite prefix_app. cbn [String.length Nat.pred].
  by rewrite replace_from_skip.
Qed.

(** X9: for a URL that holds neither [http://] nor [https://], the probe
    makes exactly one request, a GET of [https://] followed by the URL
    with a timeout of 2 seconds. It answers true exactly when that request
    returns a status from 200 to 399, false when it raises
    [RequestException], and it raises what the request raises otherwise. *)
Theorem test_tls_supported_plain_url (net : Network) (url : string)
    (sent : list Request) :
  PyStr.contains "https://" url = false →
  PyStr.contains "http://" url = false →
  TlsTest.test_tls_supported net url sent
  = match net sent (GET ("https://" +:+ url) 2) with
    | Status status_code =>
        Ok (((200 <=? status_code) && (status_code <? 400))%bool,
            (sent ++ [GET ("https://" +:+ url) 2])%list)
    | RequestException => Ok (false, (sent ++ [GET ("https://" +:+ url) 2])%list)
    | Raises e => Raise e
    end.
Proof.
  intros H1 H2. rewrite test_tls_supported_cases. cbv zeta.
  rewrite H1, H2. cbn [negb andb]. rewrite (contains_app "http://" url).
  assert (E : PyStr.replace "http://" "https://" ("http://" +:+ url)
              = "https://" +:+ url).
  { rewrite (replace_prefix "h" "ttp://" "https://" url).
    by rewrite (replace_absent "http://" "https://" url H2). }
  by rewrite E.
Qed.

Lemma test_tls_supported_plain_url_witness :
  TlsTest.test_tls_supported (net_always (Status 301)) "www.example.com/x.jpg" []
  = match net_always (Status 301) [] (GET ("https://" +:+ "www.example.com/x.jpg") 2) with
    | Status status_code =>
        Ok (((200 <=? status_code) && (status_code <? 400))%bool,
            ([] ++ [GET ("https://" +:+ "www.example.com/x.jpg") 2])%list)
    | RequestException =>
        Ok (false, ([] ++ [GET ("https://" +:+ "www.example.com/x.jpg") 2])%list)
    | Raises e => Raise e
    end.
Proof.
  apply (test_tls_supported_plain_url (net_always (Status 301))
           "www.example.com/x.jpg" []); vm_compute; reflexivity.
Defined.

(** ** More on the prober *)

Section ProberFacts.
Variable net : Network.




End ProberFacts.





(** ** More on the worker *)

Lemma tls_grows_refl ps w : tls_grows ps w w.
Proof.
  repeat split; [done | apply union_subseteq_l |].
  exists []. rewrite app_nil_r. split; [done | simpl; lia].
Qed.

Lemma tls_grows_trans ps qs w w1 w2 :
  tls_grows ps w w1 → tls_grows qs w1 w2 → tls_grows (ps ∪ qs) w w2.
Proof.
  intros (Hs1 & Hd1 & new1 & Hn1 & Hl1) (Hs2 & Hd2 & new2 & Hn2 & Hl2).
  split; [by etrans |]. split.
  { intros x Hx. apply Hd2, elem_of_union in Hx as [Hx|Hx].
    - apply Hd1, elem_of_union in Hx as [Hx|Hx].
      + by apply elem_of_union; left.
      + apply elem_of_union; right. by apply elem_of_union; left.
    - apply elem_of_union; right. by apply elem_of_union; right. }
  exists (new1 ++ new2)%list. rewrite Hn2, Hn1, app_assoc, length_app.
  split; [done | lia].
Qed.

Lemma tls_grows_same ps w w' :
  tls_support w' = tls_support w → sent w' = sent w → tls_grows ps w w'.
Proof.
  intros Ht Hs. unfold tls_grows. rewrite Ht, Hs.
  repeat split; [done | apply union_subseteq_l |]. exists []. rewrite app_nil_r.
  split; [done | simpl; lia].
Qed.

Section WorkerInvariants.
Variable urlparse_scheme : string → Result string.
Variable net : Network.
Variable json_quoted : list Tag → string.

Lemma cleanup_url_grows url provider w clean w' :
  CleanupFunctions.cleanup_url urlparse_scheme net url provider w = Ok (clean, w') →
  tls_grows {[provider]} w w'.
Proof.
  unfold CleanupFunctions.cleanup_url, CleanupFunctions.tls_supported_of.
  destruct (urlparse_scheme url) as [scheme|e]; [| done].
  destruct (String.eqb scheme "").
  - destruct (tls_support w !! provider) as [b|] eqn:Hp.
    + destruct b; intros ?; simplify_eq; apply tls_grows_refl.
    + destruct (TlsTest.test_tls_supported net url (sent w)) as [[b sent1]|e] eqn:E;
        [| done].
      assert (Hg : tls_grows {[provider]} w
                (set_tls_support (<[provider := b]> (tls_support w))
                   (set_sent sent1 w))).
      { unfold tls_grows. simpl. split; [by apply insert_subseteq |].
        split; [rewrite dom_insert_L; apply union_subseteq; split;
                  [apply union_subseteq_r | apply union_subseteq_l] |].
        rewrite map_size_insert_None by done.
        destruct (test_tls_supported_sent net _ _ _ _ E) as [->|[rq ->]].
        - exists []. rewrite app_nil_r. split; [done | simpl; lia].
        - exists [rq]. split; [done | simpl; lia]. }
      destruct b; intros ?; by simplify_eq.
  - intros ?; simplify_eq. apply tls_grows_refl.
Qed.

Lemma call_cleaning_func_grows cleaning_func dirty_value provider w clean w' :
  call_cleaning_func urlparse_scheme net cleaning_func dirty_value provider w
  = Ok (clean, w') →
  tls_grows {[provider]} w w'.
Proof.
  unfold call_cleaning_func. destruct cleaning_func.
  - destruct (CleanupFunctions.cleanup_tags dirty_value); [| done].
    intros ?; simplify_eq. apply tls_grows_refl.
  - destruct dirty_value; try done. apply cleanup_url_grows.
Qed.

Lemma clean_field_grows rules row provider update_field cleaned_data w cd' w' :
  clean_field urlparse_scheme net rules row provider update_field cleaned_data w
  = Ok (cd', w') →
  tls_grows {[provider]} w w'.
Proof.
  unfold clean_field.
  destruct (row_get row update_field) as [v|]; [| done].
  destruct (truthy v); cbn [negb].
  - destruct (PyDict.get rules update_field) as [fn|]; [| done].
    unfold bind.
    destruct (call_cleaning_func urlparse_scheme net fn v provider w)
      as [[clean w1]|e] eqn:E; [| done].
    apply call_cleaning_func_grows in E.
    intros H.
    assert (Hw : tls_support w' = tls_support w1 ∧ sent w' = sent w1).
    { destruct clean as [c|]; [destruct (clean_truthy (Some c)) |];
        by simplify_eq. }
    destruct Hw as [Ht Hs]. unfold tls_grows in *. by rewrite Ht, Hs.
  - unfold ret. intros ?; simplify_eq. apply tls_grows_refl.
Qed.

Lemma clean_fields_grows rules row provider update_fields :
  ∀ cleaned_data w cd' w',
  clean_fields urlparse_scheme net rules row provider update_fields cleaned_data w
  = Ok (cd', w') →
  tls_grows {[provider]} w w'.
Proof.
  induction update_fields as [|f rest IH]; intros cd w cd' w' H; simpl in H.
  - unfold ret in H. simplify_eq. apply tls_grows_refl.
  - unfold bind in H.
    destruct (clean_field urlparse_scheme net rules row provider f cd w)
      as [[cd1 w1]|e] eqn:E; [| done].
    apply clean_field_grows in E. apply IH in H.
    rewrite <- (union_idemp_L ({[provider]} : gset string)).
    by eapply tls_grows_trans.
Qed.

(** What one row adds to the statements. *)
Lemma clean_row_effects temp_table cfg global row w w' :
  clean_row urlparse_scheme net json_quoted temp_table cfg global row w
  = Ok (tt, w') →
  tls_grows {[row_provider row]} w w'
  ∧ committed w' = committed w
  ∧ (executed w' = executed w
     ∨ ∃ cleaned_data,
         cleaned_data ≠ []
         ∧ executed w'
           = (executed w
              ++ [update_query temp_table
                    (map (field_expression json_quoted) cleaned_data)
                    (row_id row)])%list).
Proof.
  unfold clean_row, bind.
  destruct (clean_fields urlparse_scheme net _ row (row_provider row) _ [] w)
    as [[cd w1]|e] eqn:E; [| done].
  pose proof (clean_fields_grows _ _ _ _ _ _ _ _ E) as Hg.
  destruct (clean_fields_spec _ _ _ _ _ _ _ _ _ _ E)
    as (_ & _ & _ & _ & _ & He & Hc).
  destruct cd as [|kv cd]; simpl; unfold ret; intros ?; simplify_eq.
  - split; [done |]. split; [done |]. by left.
  - split; [| split; [done |]].
    + unfold tls_grows in *. done.
    + right. exists (kv :: cd). simpl. by rewrite He.
Qed.

Lemma clean_rows_effects temp_table cfg global rows : ∀ w w',
  clean_rows urlparse_scheme net json_quoted temp_table cfg global rows w
  = Ok (tt, w') →
  tls_grows (list_to_set (row_provider <$> rows)) w w'
  ∧ committed w' = committed w
  ∧ ∃ updates : list (Z * list (string * Cleaned)),
      executed w'
      = (executed w
         ++ map (fun u => update_query temp_table
                            (map (field_expression json_quoted) (snd u)) (fst u))
              updates)%list
      ∧ Forall (fun u => snd u ≠ []) updates
      ∧ sublist (fst <$> updates) (row_id <$> rows).
Proof.
  induction rows as [|row rows IH]; intros w w' H; simpl in H.
  - unfold ret in H. simplify_eq. split; [apply tls_grows_refl |].
    split; [done |]. exists []. simpl. rewrite app_nil_r.
    repeat split; constructor.
  - unfold bind in H.
    destruct (clean_row urlparse_scheme net json_quoted temp_table cfg global row w)
      as [[[] w1]|e] eqn:E; [| done].
    destruct (clean_row_effects _ _ _ _ _ _ E) as (Hg1 & Hc1 & He1).
    destruct (IH _ _ H) as (Hg & Hc & updates & He & HF & Hsub).
    split; [| split; [congruence |]].
    + rewrite fmap_cons, list_to_set_cons. by eapply tls_grows_trans.
    + destruct He1 as [He1|(cd & Hne & He1)].
      * exists updates. rewrite He, He1. split; [done |]. split; [done |].
        rewrite fmap_cons. by apply sublist_cons.
      * exists ((row_id row, cd) :: updates).
        rewrite He, He1, <- app_assoc. split; [done |]. split.
        -- by constructor.
        -- rewrite !fmap_cons. by apply sublist_skip.
Qed.

Lemma clean_fields_noop rules row provider update_fields :
  ∀ cleaned_data w,
  (∀ field, field ∈ update_fields →
     (∃ v, row_get row field = Some v ∧ truthy v = false)
     ∨ (PyDict.get rules field = Some Fn_cleanup_url
        ∧ ∃ url scheme, row_get row field = Some (VStr url)
                        ∧ urlparse_scheme url = Ok scheme ∧ scheme ≠ "")) →
  ∃ w',
    clean_fields urlparse_scheme net rules row provider update_fields cleaned_data w
    = Ok (cleaned_data, w')
    ∧ tls_support w' = tls_support w ∧ sent w' = sent w
    ∧ executed w' = executed w ∧ committed w' = committed w.
Proof.
  induction update_fields as [|f rest IH]; intros cd w Hall; simpl.
  - by exists w.
  - assert (Hf : ∃ w1,
      clean_field urlparse_scheme net rules row provider f cd w = Ok (cd, w1)
      ∧ tls_support w1 = tls_support w ∧ sent w1 = sent w
      ∧ executed w1 = executed w ∧ committed w1 = committed w).
    { unfold clean_field.
      destruct (Hall f) as [(v & -> & Hv)|(Hget & url & scheme & -> & Hs & Hne)];
        [by apply elem_of_cons; left | |].
      - rewrite Hv. by exists w.
      - destruct (truthy (VStr url)); cbn [negb]; [| by exists w].
        rewrite Hget. unfold bind, call_cleaning_func, CleanupFunctions.cleanup_url.
        rewrite Hs. apply String.eqb_neq in Hne. rewrite Hne. by eexists. }
    destruct Hf as (w1 & E & Ht & Hs & He & Hc).
    destruct (IH cd w1) as (w' & E' & Ht' & Hs' & He' & Hc').
    { intros g Hg. apply Hall. by apply elem_of_cons; right. }
    exists w'. unfold bind. rewrite E, E'. repeat split; congruence.
Qed.

End WorkerInvariants.

Section WorkerRuns.
Variable urlparse_scheme : string → Result string.
Variable net : Network.
Variable json_quoted : list Tag → string.

Lemma worker_inv rows temp_table cfg tls w0 r w' :
  _clean_data_worker urlparse_scheme net json_quoted rows temp_table cfg tls w0
  = Ok (r, w') →
  ∃ global w1,
    cfg !! "*" = Some global
    ∧ clean_rows urlparse_scheme net json_quoted temp_table cfg global rows
        (set_tls_support tls w0) = Ok (tt, w1)
    ∧ r = true ∧ w' = commit w1.
Proof.
  unfold _clean_data_worker. destruct (cfg !! "*") as [global|]; [| done].
  destruct (clean_rows urlparse_scheme net json_quoted temp_table cfg global rows
              (set_tls_support tls w0)) as [[[] w1]|e] eqn:E; [| done].
  intros ?; simplify_eq. by exists global, w1.
Qed.

Lemma clean_rows_noop temp_table cfg global rows : ∀ w,
  Forall (fun row => already_clean urlparse_scheme
                       (fields_to_update cfg global (row_provider row)) row) rows →
  ∃ w',
    clean_rows urlparse_scheme net json_quoted temp_table cfg global rows w
    = Ok (tt, w')
    ∧ tls_support w' = tls_support w ∧ sent w' = sent w
    ∧ executed w' = executed w ∧ committed w' = committed w.
Proof.
  induction rows as [|row rows IH]; intros w HF; simpl.
  - by exists w.
  - apply Forall_cons in HF as [Hrow HF].
    destruct (clean_fields_noop urlparse_scheme net
                (fields_to_update cfg global (row_provider row)) row
                (row_provider row)
                (PyDict.keys (fields_to_update cfg global (row_provider row)))
                [] w Hrow) as (w1 & E & Ht & Hs & He & Hc).
    destruct (IH w1 HF) as (w' & E' & Ht' & Hs' & He' & Hc').
    exists w'. unfold bind at 1. unfold clean_row, bind. rewrite E. simpl.
    unfold ret. rewrite E'. repeat split; congruence.
Qed.

End WorkerRuns.

(** X13: a worker never changes a decision that it was given: every
    entry of the TLS mapping passed to it is still there, with the same
    value, when it returns, and the entries it has added are for
    providers of its own rows. *)
Theorem worker_keeps_tls_decisions (urlparse_scheme : string → Result string)
    (net : Network) (json_quoted : list Tag → string)
    rows temp_table cfg (tls : gmap string bool) w0 r w' :
  _clean_data_worker urlparse_scheme net json_quoted rows temp_table cfg tls w0
  = Ok (r, w') →
  (∀ p b, tls !! p = Some b → tls_support w' !! p = Some b)
  ∧ ∀ p, is_Some (tls_support w' !! p) →
         is_Some (tls !! p) ∨ p ∈ row_provider <$> rows.
Proof.
  intros H. destruct (worker_inv _ _ _ _ _ _ _ _ _ _ H) as (g & w1 & _ & E & -> & ->).
  destruct (clean_rows_effects _ _ _ _ _ _ _ _ _ E) as ((Hsub & Hdom & _) & _).
  simpl in *. split.
  - intros p b Hp. by eapply lookup_weaken.
  - intros p Hp. apply elem_of_dom, Hdom, elem_of_union in Hp as [Hp|Hp].
    + left. by apply elem_of_dom.
    + right. by apply elem_of_list_to_set in Hp.
Qed.

Lemma worker_keeps_tls_decisions_witness :
  ∃ w', _clean_data_worker urlsplit_scheme (net_always (Status 200)) json_stub
          [row_flickr; row_unknown_provider] "temp_import_image"
          {[ "*" := image_rules ]} {[ "flickr" := false ]} empty_world
        = Ok (true, w')
        ∧ (∀ p b, ({[ "flickr" := false ]} : gmap string bool) !! p = Some b →
                  tls_support w' !! p = Some b)
        ∧ ∀ p, is_Some (tls_support w' !! p) →
               is_Some (({[ "flickr" := false ]} : gmap string bool) !! p)
               ∨ p ∈ row_provider <$> [row_flickr; row_unknown_provider].
Proof.
  eexists. split; [vm_compute; reflexivity |].
  apply (worker_keeps_tls_decisions urlsplit_scheme (net_always (Status 200))
           json_stub [row_flickr; row_unknown_provider] "temp_import_image"
           {[ "*" := image_rules ]} {[ "flickr" := false ]} empty_world true).
  vm_compute. reflexivity.
Defined.

(** X14: a worker only adds to the requests made before it, and it makes
    at most one request for each provider of its rows that is missing
    from the mapping it was given, however many URLs of that provider it
    cleans. *)
Theorem worker_probes_each_provider_once (urlparse_scheme : string → Result string)
    (net : Network) (json_quoted : list Tag → string)
    rows temp_table cfg (tls : gmap string bool) w0 r w' :
  _clean_data_worker urlparse_scheme net json_quoted rows temp_table cfg tls w0
  = Ok (r, w') →
  ∃ new,
    sent w' = (sent w0 ++ new)%list
    ∧ (length new
       ≤ size ((list_to_set (row_provider <$> rows) : gset string) ∖ dom tls))%nat.
Proof.
  intros H. destruct (worker_inv _ _ _ _ _ _ _ _ _ _ H) as (g & w1 & _ & E & -> & ->).
  destruct (clean_rows_effects _ _ _ _ _ _ _ _ _ E)
    as ((_ & Hdom & new & Hs & Hl) & _).
  simpl in *. exists new. split; [done |].
  apply subseteq_size in Hdom. rewrite size_union_alt, !size_dom in Hdom. lia.
Qed.

Lemma worker_probes_each_provider_once_witness :
  ∃ w' new,
    _clean_data_worker urlsplit_scheme (net_always (Status 200)) json_stub
      [row_flickr; row_unknown_provider] "temp_import_image"
      {[ "*" := image_rules ]} {[ "flickr" := false ]} empty_world
    = Ok (true, w')
    ∧ sent w' = (sent empty_world ++ new)%list
    ∧ (length new
       ≤ size ((list_to_set (row_provider <$> [row_flickr; row_unknown_provider])
                : gset string) ∖ dom ({[ "flickr" := false ]} : gmap string bool)))%nat.
Proof.
  eexists.
  assert (E : _clean_data_worker urlsplit_scheme (net_always (Status 200)) json_stub
                [row_flickr; row_unknown_provider] "temp_import_image"
                {[ "*" := image_rules ]} {[ "flickr" := false ]} empty_world
              = Ok (true, _)) by (vm_compute; reflexivity).
  destruct (worker_probes_each_provider_once _ _ _ _ _ _ _ _ _ _ E)
    as (new & Hs & Hl).
  exists new. split; [exact E |]. split; [exact Hs | exact Hl].
Defined.

(** X15: when a worker returns, nothing is left pending, and the texts it
    has committed beyond those that were there before are, for some of its
    rows in the order of the rows and at most once for a row, the UPDATE
    template filled with the table it was given, the id of the row and at
    least one expression [field = value]. What a text makes the database
    do is not said here: a value is put into it without escaping. *)
Theorem worker_commits_one_update_per_row (urlparse_scheme : string → Result string)
    (net : Network) (json_quoted : list Tag → string)
    rows temp_table cfg (tls : gmap string bool) w0 r w' :
  _clean_data_worker urlparse_scheme net json_quoted rows temp_table cfg tls w0
  = Ok (r, w') →
  r = true ∧ executed w' = []
  ∧ ∃ updates : list (Z * list (string * Cleaned)),
      committed w'
      = (committed w0 ++ executed w0
         ++ map (fun u => update_query temp_table
                            (map (field_expression json_quoted) (snd u)) (fst u))
              updates)%list
      ∧ Forall (fun u => snd u ≠ []) updates
      ∧ sublist (fst <$> updates) (row_id <$> rows).
Proof.
  intros H. destruct (worker_inv _ _ _ _ _ _ _ _ _ _ H) as (g & w1 & _ & E & -> & ->).
  destruct (clean_rows_effects _ _ _ _ _ _ _ _ _ E)
    as (_ & Hc & updates & He & HF & Hsub).
  simpl in *. split; [done |]. split; [done |].
  exists updates. by rewrite Hc, He.
Qed.

Lemma worker_commits_one_update_per_row_witness :
  ∃ w', _clean_data_worker urlsplit_scheme (net_always (Status 200)) json_stub
          [row_cleaned; row_flickr] "temp_import_image"
          {[ "*" := image_rules ]} {[ "flickr" := true ]} empty_world
        = Ok (true, w')
        ∧ true = true ∧ executed w' = []
        ∧ ∃ updates : list (Z * list (string * Cleaned)),
            committed w'
            = (committed empty_world ++ executed empty_world
               ++ map (fun u => update_query "temp_import_image"
                                  (map (field_expression json_stub) (snd u)) (fst u))
                    updates)%list
            ∧ Forall (fun u => snd u ≠ []) updates
            ∧ sublist (fst <$> updates) (row_id <$> [row_cleaned; row_flickr]).
Proof.
  eexists. split; [vm_compute; reflexivity |].
  apply (worker_commits_one_update_per_row urlsplit_scheme
           (net_always (Status 200)) json_stub [row_cleaned; row_flickr]
           "temp_import_image" {[ "*" := image_rules ]} {[ "flickr" := true ]}
           empty_world true).
  vm_compute. reflexivity.
Defined.

(** X16: running a worker on rows that need no cleaning (every registered
    field empty, or a URL under [cleanup_url] that [urlparse] parses and in
    which it finds a scheme) is harmless: it returns, makes no request,
    learns no provider and commits nothing but what was pending. *)
Theorem worker_idle_on_clean_rows (urlparse_scheme : string → Result string)
    (net : Network) (json_quoted : list Tag → string)
    rows temp_table cfg global (tls : gmap string bool) w0 :
  cfg !! "*" = Some global →
  Forall (fun row => already_clean urlparse_scheme
                       (fields_to_update cfg global (row_provider row)) row) rows →
  ∃ w',
    _clean_data_worker urlparse_scheme net json_quoted rows temp_table cfg tls w0
    = Ok (true, w')
    ∧ sent w' = sent w0 ∧ tls_support w' = tls
    ∧ executed w' = []
    ∧ committed w' = (committed w0 ++ executed w0)%list.
Proof.
  intros Hg HF. unfold _clean_data_worker. rewrite Hg.
  destruct (clean_rows_noop urlparse_scheme net json_quoted temp_table cfg global rows
              (set_tls_support tls w0) HF) as (w1 & E & Ht & Hs & He & Hc).
  rewrite E. exists (commit w1). simpl in *.
  repeat split; congruence.
Qed.

Lemma worker_idle_on_clean_rows_witness :
  ∃ w',
    _clean_data_worker urlsplit_scheme (net_always (Status 200)) json_stub
      [row_cleaned] "temp_import_image" {[ "*" := image_rules ]}
      {[ "flickr" := true ]} empty_world
    = Ok (true, w')
    ∧ sent w' = sent empty_world ∧ tls_support w' = {[ "flickr" := true ]}
    ∧ executed w' = []
    ∧ committed w' = (committed empty_world ++ executed empty_world)%list.
Proof.
  apply (worker_idle_on_clean_rows urlsplit_scheme (net_always (Status 200))
           json_stub [row_cleaned] "temp_import_image" {[ "*" := image_rules ]}
           image_rules {[ "flickr" := true ]} empty_world).
  - vm_compute. reflexivity.
  - constructor; [| constructor]. intros field Hf.
    assert (Hk : PyDict.keys (fields_to_update {[ "*" := image_rules ]} image_rules
                                (row_provider row_cleaned))
                 = ["tags"; "url"; "creator_url"; "foreign_landing_url"; "thumbnail"])
      by (vm_compute; reflexivity).
    rewrite Hk in Hf.
    repeat (apply elem_of_cons in Hf as [->|Hf];
            [first [ left; eexists; split; vm_compute; reflexivity
                   | right; split; [vm_compute; reflexivity |];
                     exists "http://example.com/y.jpg", "http";
                     split; [vm_compute; reflexivity |];
                     split; [vm_compute; reflexivity | discriminate] ] |]).
    by apply elem_of_nil in Hf.
Defined.

(** ** The selected columns *)

Lemma fields_to_clean_elem (providers : gmap string FieldTable) (field : string) :
  field ∈ fields_to_clean providers
  ↔ ∃ p provider_fields,
      providers !! p = Some provider_fields ∧ field ∈ PyDict.keys provider_fields.
Proof.
  unfold fields_to_clean. rewrite elem_of_union_list. split.
  - intros (X & HX & Hf). apply list_elem_of_fmap in HX as ([p pf] & -> & Hin).
    apply elem_of_map_to_list in Hin. simpl in Hf.
    apply elem_of_list_to_set in Hf. eauto.
  - intros (p & pf & Hp & Hf).
    exists (list_to_set (PyDict.keys pf)). split.
    + apply list_elem_of_fmap. exists (p, pf). split; [done |].
      by apply elem_of_map_to_list.
    + by apply elem_of_list_to_set.
Qed.

Lemma merge_keys {V} (a b : list (string * V)) (k : string) :
  k ∈ PyDict.keys (PyDict.merge a b) ↔ k ∈ PyDict.keys a ∨ k ∈ PyDict.keys b.
Proof. unfold PyDict.merge. apply dict_set_all_keys. Qed.

(** X17: the rules that a worker applies to a row only name fields that
    [clean_image_data] puts into [fields_to_clean], whatever the row's
    provider. So on a row that has a column for each of these fields, no
    lookup [row[update_field]] of the worker fails. *)
Theorem selection_covers_worker_lookups (providers : gmap string FieldTable)
    (global_field_to_func : FieldTable) (row : Row) (field : string) :
  providers !! "*" = Some global_field_to_func →
  field ∈ PyDict.keys (fields_to_update providers global_field_to_func
                         (row_provider row)) →
  field ∈ fields_to_clean providers
  ∧ ((∀ c, c ∈ fields_to_clean providers → is_Some (row_fields row !! c)) →
     is_Some (row_get row field)).
Proof.
  intros Hg Hf.
  assert (Hin : field ∈ fields_to_clean providers).
  { apply fields_to_clean_elem. unfold fields_to_update in Hf.
    destruct (providers !! row_provider row) as [pf|] eqn:Hp.
    - apply merge_keys in Hf as [Hf|Hf]; eauto.
    - eauto. }
  split; [done |]. intros Hcols. unfold row_get.
  destruct (String.eqb field "id"); [eauto |].
  destruct (String.eqb field "provider"); [eauto |].
  by apply Hcols.
Qed.

Lemma selection_covers_worker_lookups_witness :
  "title" ∈ fields_to_clean providers_with_override
  ∧ is_Some (row_get row_titled "title").
Proof.
  assert (Hg : providers_with_override !! "*"
               = Some [("tags", Fn_cleanup_tags); ("url", Fn_cleanup_url)])
    by (vm_compute; reflexivity).
  assert (Hf : "title" ∈ PyDict.keys
                 (fields_to_update providers_with_override
                    [("tags", Fn_cleanup_tags); ("url", Fn_cleanup_url)]
                    (row_provider row_titled)))
    by (apply (bool_decide_unpack _); vm_compute; exact I).
  destruct (selection_covers_worker_lookups providers_with_override
              [("tags", Fn_cleanup_tags); ("url", Fn_cleanup_url)] row_titled
              "title" Hg Hf) as [Hin Hget].
  split; [exact Hin |]. apply Hget. intros c Hc.
  assert (Hall : fields_to_clean providers_with_override
                 = {[ "tags"; "url"; "title" ]})
    by (apply (bool_decide_unpack _); vm_compute; exact I).
  rewrite Hall in Hc.
  apply elem_of_union in Hc as [Hc|Hc]; [apply elem_of_union in Hc as [Hc|Hc] |];
    apply elem_of_singleton in Hc; subst c; eexists; vm_compute; reflexivity.
Defined.
